(** * AI caption generator: a shallow embedding of [app.py]

    The script classifies an image (or the middle frame of a video) and asks
    a remote text service for captions and hashtags.  Everything it does is
    an interaction with a library: PIL, OpenCV, the ViT model, Bedrock and
    the console.  The embedding keeps the script's own control flow as
    executable Rocq functions in a small monad that records every library
    call as an event and carries Python exceptions as an error result; what
    the libraries answer is read from an [Env] record. *)

From Stdlib Require Import ZArith List Bool Ascii String Lia.
Import ListNotations.

Open Scope string_scope.
Open Scope list_scope.

(* ================================================================= *)
(** * Python strings *)

Module Str.

(** The newline character, written [\n] in the source. *)
Definition nl : string := String (ascii_of_nat 10) EmptyString.

(** A path is the UTF-8 bytes of the Python string.  [lower_ascii] is
    [c.lower()] for a character of the ASCII range: the letters [A]..[Z]
    move to [a]..[z]. *)
Definition lower_ascii (c : ascii) : ascii :=
  let n := nat_of_ascii c in
  if (65 <=? n)%nat && (n <=? 90)%nat then ascii_of_nat (n + 32) else c.

Definition is_byte (n : nat) (c : ascii) : bool := Nat.eqb (nat_of_ascii c) n.

(** U+212A KELVIN SIGN, bytes E2 84 AA: lowers to [k]. *)
Definition is_kelvin (c1 c2 c3 : ascii) : bool :=
  is_byte 226 c1 && is_byte 132 c2 && is_byte 170 c3.

(** U+0130 LATIN CAPITAL LETTER I WITH DOT ABOVE, bytes C4 B0: lowers to
    [i] followed by U+0307, bytes CC 87. *)
Definition is_dotted_I (c1 c2 : ascii) : bool :=
  is_byte 196 c1 && is_byte 176 c2.

Definition combining_dot (tail : string) : string :=
  String (ascii_of_nat 204) (String (ascii_of_nat 135) tail).

(** [s.lower()].  The two characters outside ASCII that lower into ASCII are
    lowered as Python lowers them.  Every other character outside ASCII
    lowers to characters outside ASCII, whose bytes are all 128 or more; its
    bytes are kept, which no comparison of the lowered string with a string
    of ASCII characters can tell from the lowered bytes. *)
Fixpoint lower (s : string) : string :=
  match s with
  | EmptyString => EmptyString
  | String c1 s1 =>
      match s1 with
      | EmptyString => String (lower_ascii c1) EmptyString
      | String c2 s2 =>
          if is_dotted_I c1 c2 then String "i" (combining_dot (lower s2))
          else
            match s2 with
            | EmptyString => String (lower_ascii c1) (lower s1)
            | String c3 s3 =>
                if is_kelvin c1 c2 c3 then String "k" (lower s3)
                else String (lower_ascii c1) (lower s1)
            end
      end
  end.

(** Bytes of the ASCII range, and how many a string has. *)
Definition is_low (c : ascii) : bool := (nat_of_ascii c <? 128)%nat.


(** [s.endswith(suffix)] for one suffix: [s] is the suffix, or what follows
    its first character ends with it. *)
Fixpoint endswith1 (s suffix : string) : bool :=
  String.eqb s suffix
  || match s with
     | EmptyString => false
     | String _ s' => endswith1 s' suffix
     end.

(** [s.endswith((suf1, suf2, ...))]: true when one of the suffixes fits. *)
Definition endswith (s : string) (suffixes : list string) : bool :=
  existsb (endswith1 s) suffixes.

(** The propositional reading of "ends in". *)
Definition ends_in (s suffix : string) : Prop :=
  exists p, s = (p ++ suffix)%string.

(** [x in s] for strings: [x] occurs in [s] as a contiguous piece. *)
Definition occurs_in (x s : string) : Prop :=
  exists p q, s = (p ++ x ++ q)%string.

End Str.

(* ================================================================= *)
(** * JSON values, as [json.loads] builds them and [json.dumps] reads them *)

#[local] Set Warnings "-register-all".

Inductive json : Type :=
| JNull
| JBool (b : bool)
| JNum (literal : string)
| JStr (s : string)
| JArr (items : list json)
| JObj (fields : list (string * json)).

Inductive exn : Type :=
| Exception (msg : string)          (* [raise Exception(msg)] in app.py *)
| KeyError (key : json)             (* [d[k]] on a dict without [k] *)
| IndexError                        (* [l[i]] out of range *)
| TypeError                         (* subscript on a value that has none *)
| LibraryError (origin detail : string). (* raised inside a library call *)

Module Py.

(** Last binding of [k]: [json.loads] keeps the last of duplicate keys. *)
Fixpoint dict_get (k : string) (fields : list (string * json)) : option json :=
  match fields with
  | [] => None
  | (k', v) :: rest =>
      match dict_get k rest with
      | Some v' => Some v'
      | None => if String.eqb k k' then Some v else None
      end
  end.

(** [v[k]] with a string key. *)
Definition getitem_key (v : json) (k : string) : exn + json :=
  match v with
  | JObj fields =>
      match dict_get k fields with
      | Some x => inr x
      | None => inl (KeyError (JStr k))
      end
  | _ => inl TypeError
  end.

(** [v[0]] *)
Definition getitem_0 (v : json) : exn + json :=
  match v with
  | JArr (x :: _) => inr x
  | JArr [] => inl IndexError
  | JStr (String c _) => inr (JStr (String c EmptyString))
  | JStr EmptyString => inl IndexError
  | JObj _ => inl (KeyError (JNum "0"))
  | _ => inl TypeError
  end.

End Py.

(* ================================================================= *)
(** * Images *)

(** A frame as [cap.read()] hands it over: rows of pixels, every pixel its
    three channel bytes in storage order. *)
Definition pixel : Type := Z * Z * Z.
Definition ndarray : Type := list (list pixel).

(** PIL image modes. *)
Inductive mode : Type := M_1 | M_L | M_P | M_RGB | M_RGBA | M_CMYK.

(** A PIL image: its mode and, per row and per pixel, the band values in the
    order of the mode's bands. *)
Record Image : Type := mkImage {
  im_mode : mode;
  im_data : list (list (list Z))
}.

Module cv2.

(** [cv2.cvtColor(frame, cv2.COLOR_BGR2RGB)]: first and third channel of
    every pixel change places. *)
Definition swap_rb (p : pixel) : pixel :=
  let '(c0, c1, c2) := p in (c2, c1, c0).

Definition cvtColor_BGR2RGB (frame : ndarray) : ndarray :=
  map (map swap_rb) frame.

End cv2.

(** [Image.fromarray] on a height x width x 3 byte array: an image of mode
    RGB whose bands are the array's channels in storage order. *)
Definition Image_fromarray (a : ndarray) : Image :=
  mkImage M_RGB (map (map (fun p : pixel => let '(c0, c1, c2) := p in [c0; c1; c2])) a).

(* ================================================================= *)
(** * Events, the environment and the monad *)

(** The body of the Bedrock call, as passed to [invoke_model]. [body] is the
    value given to [json.dumps]. *)
Record request : Type := mkRequest {
  modelId : string;
  body : json;
  accept : string;
  contentType : string
}.

(** What the script does to the outside, in the order it does it. *)
Inductive event : Type :=
| EPrint (args : list json)          (* [print(a, b, ...)] *)
| EImageOpen (path : string)         (* [Image.open(path)] *)
| EVideoCapture (path : string)      (* [cv2.VideoCapture(path)] *)
| ECapGetFrameCount (path : string)  (* [cap.get(cv2.CAP_PROP_FRAME_COUNT)] *)
| ECapSetPos (path : string) (pos : Z) (* [cap.set(cv2.CAP_PROP_POS_FRAMES, pos)] *)
| ECapRead (path : string)           (* [cap.read()] *)
| ECapRelease (path : string)        (* [cap.release()] *)
| EClassify (img : Image)            (* processor and model run on [img] *)
| EInvokeModel (req : request).      (* [bedrock.invoke_model(...)] *)

(** What the libraries answer. *)
Record Env : Type := mkEnv {
  (** [Image.open(path)] *)
  image_open : string -> exn + Image;
  (** [int(cap.get(cv2.CAP_PROP_FRAME_COUNT))] for the container at a path *)
  frame_count : string -> Z;
  (** [cap.read()] on the container at a path after the position was set:
      [None] is [success = False] *)
  decode_at : string -> Z -> option ndarray;
  (** label of the top class: [model.config.id2label[logits.argmax(-1)]] *)
  vit_label : Image -> exn + string;
  (** the service's parsed answer [json.loads(response["body"].read())] to a
      request, given all that happened before it *)
  invoke_model : list event -> request -> exn + json
}.

(** A computation reads the history, emits events and returns or raises. *)
Definition M (A : Type) : Type := list event -> list event * (exn + A).

Definition ret {A} (a : A) : M A := fun _ => ([], inr a).
Definition raise {A} (e : exn) : M A := fun _ => ([], inl e).
Definition emit (e : event) : M unit := fun _ => ([e], inr tt).
Definition history : M (list event) := fun h => ([], inr h).
Definition lift {A} (r : exn + A) : M A := fun _ => ([], r).

Definition bind {A B} (m : M A) (k : A -> M B) : M B :=
  fun h =>
    match m h with
    | (out1, inl e) => (out1, inl e)
    | (out1, inr a) =>
        let '(out2, r) := k a (h ++ out1) in (out1 ++ out2, r)
    end.

Declare Scope py_scope.
Delimit Scope py_scope with py.
Notation "x <- m ;; k" := (bind m (fun x => k))
  (at level 100, m at next level, right associativity) : py_scope.
Notation "m ;; k" := (bind m (fun _ => k))
  (at level 100, right associativity) : py_scope.
Open Scope py_scope.

(** Events emitted and outcome of a run that starts after history [h]. *)
Definition emitted {A} (m : M A) (h : list event) : list event := fst (m h).
Definition outcome {A} (m : M A) (h : list event) : exn + A := snd (m h).

(** [print(a, b, ...)] *)
Definition print (args : list json) : M unit := emit (EPrint args).

(* ================================================================= *)
(** * The script *)

(** The capture object: the container it was made for and the position the
    next [read] decodes. *)
Record capture : Type := mkCapture {
  cap_path : string;
  cap_pos : Z
}.

Section App.

Variable env : Env.

(** ** Library calls *)

Definition Image_open (path : string) : M Image :=
  fun _ => ([EImageOpen path], image_open env path).

Definition VideoCapture (path : string) : M capture :=
  emit (EVideoCapture path) ;; ret (mkCapture path 0).

Definition cap_get_frame_count (cap : capture) : M Z :=
  emit (ECapGetFrameCount (cap_path cap)) ;; ret (frame_count env (cap_path cap)).

Definition cap_set_pos_frames (cap : capture) (pos : Z) : M capture :=
  emit (ECapSetPos (cap_path cap) pos) ;; ret (mkCapture (cap_path cap) pos).

Definition cap_read (cap : capture) : M (option ndarray) :=
  emit (ECapRead (cap_path cap)) ;; ret (decode_at env (cap_path cap) (cap_pos cap)).

Definition cap_release (cap : capture) : M unit :=
  emit (ECapRelease (cap_path cap)).

Definition bedrock_invoke_model (req : request) : M json :=
  fun h => ([EInvokeModel req], invoke_model env h req).

(** ** [bedrock_generate] *)

Definition bedrock_body (prompt : string) : json :=
  JObj [("messages",
         JArr [JObj [("role", JStr "user");
                     ("content", JArr [JObj [("text", JStr prompt)]])]])].

Definition bedrock_request (prompt : string) : request :=
  mkRequest "amazon.nova-lite-v1:0" (bedrock_body prompt)
            "application/json" "application/json".

(** [data["output"]["message"]["content"][0]["text"]] *)
Definition first_text (data : json) : exn + json :=
  match Py.getitem_key data "output" with
  | inl e => inl e
  | inr output =>
      match Py.getitem_key output "message" with
      | inl e => inl e
      | inr message =>
          match Py.getitem_key message "content" with
          | inl e => inl e
          | inr content =>
              match Py.getitem_0 content with
              | inl e => inl e
              | inr segment => Py.getitem_key segment "text"
              end
          end
      end
  end.

Definition bedrock_generate (prompt : string) : M json :=
  data <- bedrock_invoke_model (bedrock_request prompt) ;;
  lift (first_text data).

(** ** [classify_image] *)

Definition classify_image (pil_img : Image) : M string :=
  emit (EClassify pil_img) ;; lift (vit_label env pil_img).

(** ** [extract_middle_frame] *)

Definition extract_middle_frame (video_path : string) : M Image :=
  cap <- VideoCapture video_path ;;
  total_frames <- cap_get_frame_count cap ;;
  let mid := (total_frames / 2)%Z in
  cap <- cap_set_pos_frames cap mid ;;
  read <- cap_read cap ;;
  cap_release cap ;;
  match read with
  | None => raise (Exception "Could not extract frame!")
  | Some frame =>
      let frame := cv2.cvtColor_BGR2RGB frame in
      ret (Image_fromarray frame)
  end.

(** ** [generate_caption_and_hashtags] *)

Definition caption_prompt (theme : string) : string :=
  (Str.nl ++ "Generate 3 Instagram captions for: " ++ theme ++ Str.nl
   ++ Str.nl
   ++ "1. Aesthetic (under 12 words)" ++ Str.nl
   ++ "2. Funny (under 12 words)" ++ Str.nl
   ++ "3. Influencer style (under 12 words)" ++ Str.nl)%string.

Definition hashtags_prompt (theme : string) : string :=
  (Str.nl ++ "Generate 15 Instagram hashtags for " ++ theme ++ "." ++ Str.nl
   ++ "Rules:" ++ Str.nl
   ++ "- lowercase" ++ Str.nl
   ++ "- no spaces" ++ Str.nl
   ++ "- comma separated" ++ Str.nl)%string.

Definition generate_caption_and_hashtags (theme : string) : M (json * json) :=
  captions <- bedrock_generate (caption_prompt theme) ;;
  hashtags <- bedrock_generate (hashtags_prompt theme) ;;
  ret (captions, hashtags).

(** ** [process_file] *)

Definition image_suffixes : list string := [".jpg"; ".jpeg"; ".png"].
Definition video_suffixes : list string := [".mp4"; ".mov"; ".mkv"].

(** Lines 122 to 127: what both accepted branches run after the label is
    known. *)
Definition process_label (label : string) : M unit :=
  print [JStr "Detected Theme:"; JStr label] ;;
  r <- generate_caption_and_hashtags label ;;
  let '(captions, hashtags) := r in
  print [JStr (Str.nl ++ "✨ CAPTIONS:" ++ Str.nl); captions] ;;
  print [JStr (Str.nl ++ "🔖 HASHTAGS:" ++ Str.nl); hashtags].

Definition process_file (path : string) : M unit :=
  if Str.endswith (Str.lower path) image_suffixes then
    print [JStr ("Processing IMAGE..." ++ Str.nl)] ;;
    img <- Image_open path ;;
    label <- classify_image img ;;
    process_label label
  else if Str.endswith (Str.lower path) video_suffixes then
    print [JStr ("Processing VIDEO..." ++ Str.nl)] ;;
    img <- extract_middle_frame path ;;
    label <- classify_image img ;;
    process_label label
  else
    print [JStr "Unsupported file!"] ;;
    ret tt.

End App.

(* ================================================================= *)
(** * Vocabulary for runs *)

(** Events that only [extract_middle_frame] produces. *)
Definition is_capture_event (e : event) : Prop :=
  match e with
  | EVideoCapture _ | ECapGetFrameCount _ | ECapSetPos _ _
  | ECapRead _ | ECapRelease _ => True
  | _ => False
  end.

Definition theme_line (label : string) : event :=
  EPrint [JStr "Detected Theme:"; JStr label].

Definition image_notice : event := EPrint [JStr ("Processing IMAGE..." ++ Str.nl)].
Definition video_notice : event := EPrint [JStr ("Processing VIDEO..." ++ Str.nl)].
Definition unsupported_notice : event := EPrint [JStr "Unsupported file!"].

Definition is_image_path (path : string) : Prop :=
  Str.ends_in (Str.lower path) ".jpg"
  \/ Str.ends_in (Str.lower path) ".jpeg"
  \/ Str.ends_in (Str.lower path) ".png".

Definition is_video_path (path : string) : Prop :=
  Str.ends_in (Str.lower path) ".mp4"
  \/ Str.ends_in (Str.lower path) ".mov"
  \/ Str.ends_in (Str.lower path) ".mkv".

Definition is_invoke_event (e : event) : Prop :=
  match e with EInvokeModel _ => True | _ => False end.

(** After the label is known the script only prints and calls Bedrock. *)
Definition is_report_event (e : event) : Prop :=
  match e with
  | EPrint _ | EInvokeModel _ => True
  | _ => False
  end.

(** Events of the first stage: notices, the load, the capture. *)
Definition is_load_event (e : event) : Prop :=
  match e with
  | EClassify _ | EInvokeModel _ => False
  | _ => True
  end.

Definition captions_line (captions : json) : event :=
  EPrint [JStr (Str.nl ++ "✨ CAPTIONS:" ++ Str.nl); captions].
Definition hashtags_line (hashtags : json) : event :=
  EPrint [JStr (Str.nl ++ "🔖 HASHTAGS:" ++ Str.nl); hashtags].

Definition frame_error : exn := Exception "Could not extract frame!".

(** Pixel at row [i], column [j]. *)
Definition frame_pixel (f : ndarray) (i j : nat) : option pixel :=
  match nth_error f i with
  | Some row => nth_error row j
  | None => None
  end.

Definition image_pixel (img : Image) (i j : nat) : option (list Z) :=
  match nth_error (im_data img) i with
  | Some row => nth_error row j
  | None => None
  end.

(** The bands R, G, B of a pixel stored as B, G, R. *)
Definition bgr_to_rgb (p : pixel) : list Z :=
  let '(b, g, r) := p in [r; g; b].

(** Captures made and not yet released, newest first. *)
Fixpoint release_first (path : string) (open : list string) : list string :=
  match open with
  | [] => []
  | p :: rest => if String.eqb p path then rest else p :: release_first path rest
  end.

Definition track_capture (open : list string) (e : event) : list string :=
  match e with
  | EVideoCapture p => p :: open
  | ECapRelease p => release_first p open
  | _ => open
  end.

Definition open_captures (tr : list event) : list string :=
  fold_left track_capture tr [].

Section Outcomes.

Variable env : Env.

(** One call of [bedrock_generate]: one request, then the first text segment
    of the answer or the exception. *)
Definition answer (h : list event) (prompt : string) : exn + json :=
  match invoke_model env h (bedrock_request prompt) with
  | inl e => inl e
  | inr data => first_text data
  end.

(** How far a run of [process_file] gets. *)
Inductive stage (path : string) (h : list event) : Prop :=
| Unsupported :
    process_file env path h = ([unsupported_notice], inr tt) ->
    stage path h
| LoadFailed (l1 : list event) (e : exn) :
    Forall is_load_event l1 ->
    process_file env path h = (l1, inl e) ->
    stage path h
| ClassifyFailed (l1 : list event) (img : Image) (e : exn) :
    Forall is_load_event l1 ->
    vit_label env img = inl e ->
    process_file env path h = (l1 ++ [EClassify img], inl e) ->
    stage path h
| Labelled (l1 : list event) (img : Image) (label : string) :
    Forall is_load_event l1 ->
    vit_label env img = inr label ->
    process_file env path h =
      ((l1 ++ [EClassify img])
         ++ emitted (process_label env label) (h ++ l1 ++ [EClassify img]),
       outcome (process_label env label) (h ++ l1 ++ [EClassify img])) ->
    stage path h.

End Outcomes.

(* ================================================================= *)
(** * Sample environments *)

Module Sample.

Definition rgb_image : Image := mkImage M_RGB [[[200; 150; 100]]]%Z.
Definition rgba_image : Image := mkImage M_RGBA [[[200; 150; 100; 255]]]%Z.
Definition cmyk_image : Image := mkImage M_CMYK [[[0; 80; 120; 10]]]%Z.
Definition bgr_frame : ndarray := [[(10, 20, 30); (1, 2, 3)]; [(4, 5, 6); (7, 8, 9)]]%Z.

Definition reply (text : string) : json :=
  JObj [("output",
         JObj [("message",
                JObj [("role", JStr "assistant");
                      ("content", JArr [JObj [("text", JStr text)];
                                        JObj [("text", JStr "second segment")]])])])].

Definition is_invoke (e : event) : bool :=
  match e with EInvokeModel _ => true | _ => false end.

Definition file_not_found : exn := LibraryError "PIL" "FileNotFoundError".
Definition service_down : exn := LibraryError "botocore" "EndpointConnectionError".

(** A disk with [beach.jpg] (RGB), [logo.png] (RGBA), [poster.jpg] (a CMYK
    JPEG as print shops make them), [clip.MP4] (100
    frames), [live.mkv] (no frame count in the container, frames decode) and
    [empty.mov] (nothing decodes); the classifier answers [seashore]; the
    service answers its first request with captions and later ones with
    hashtags. *)
Definition env : Env := {|
  image_open := fun path =>
    if String.eqb path "beach.jpg" then inr rgb_image
    else if String.eqb path "logo.png" then inr rgba_image
    else if String.eqb path "poster.jpg" then inr cmyk_image
    else inl file_not_found;
  frame_count := fun path =>
    if String.eqb path "clip.MP4" then 100%Z else 0%Z;
  decode_at := fun path pos =>
    if String.eqb path "clip.MP4" then
      (if (pos =? 50)%Z then Some bgr_frame else None)
    else if String.eqb path "live.mkv" then
      (if (pos =? 0)%Z then Some bgr_frame else None)
    else None;
  vit_label := fun _ => inr "seashore";
  invoke_model := fun h _ =>
    if existsb is_invoke h then inr (reply "#sea, #shore")
    else inr (reply "1. Waves. 2. Sandy. 3. Vibes.")
|}.

(** The same disk with the service unreachable. *)
Definition env_down : Env := {|
  image_open := image_open env;
  frame_count := frame_count env;
  decode_at := decode_at env;
  vit_label := vit_label env;
  invoke_model := fun _ _ => inl service_down
|}.

End Sample.

(* ================================================================= *)
(** * Runs in closed form *)

(** What a run does before the classifier: the notice and the load of the
    image, or the notice and the extraction of the frame; nothing for a path
    of neither kind. *)
Definition first_stage (env : Env) (path : string)
  : option (list event * (exn + Image)) :=
  if Str.endswith (Str.lower path) image_suffixes then
    Some ([image_notice; EImageOpen path], image_open env path)
  else if Str.endswith (Str.lower path) video_suffixes then
    Some ([video_notice; EVideoCapture path; ECapGetFrameCount path;
           ECapSetPos path (frame_count env path / 2)%Z;
           ECapRead path; ECapRelease path],
          match decode_at env path (frame_count env path / 2)%Z with
          | None => inl frame_error
          | Some frame => inr (Image_fromarray (cv2.cvtColor_BGR2RGB frame))
          end)
  else None.

Definition caption_request (label : string) : event :=
  EInvokeModel (bedrock_request (caption_prompt label)).
Definition hashtags_request (label : string) : event :=
  EInvokeModel (bedrock_request (hashtags_prompt label)).

(** Counting events of a kind. *)
Definition sends_request (e : event) : bool :=
  match e with EInvokeModel _ => true | _ => false end.
Definition classifies (e : event) : bool :=
  match e with EClassify _ => true | _ => false end.
Definition opens_file (e : event) : bool :=
  match e with EImageOpen _ | EVideoCapture _ => true | _ => false end.
Definition reads_frame (e : event) : bool :=
  match e with ECapRead _ => true | _ => false end.
Definition count (kind : event -> bool) (tr : list event) : nat :=
  List.length (filter kind tr).

(** More sample environments, on the disk of [Sample.env]. *)
Module Faulty.

Definition classifier_error : exn := LibraryError "torch" "RuntimeError".

(** The classifier raises. *)
Definition env_no_classifier : Env := {|
  image_open := image_open Sample.env;
  frame_count := frame_count Sample.env;
  decode_at := decode_at Sample.env;
  vit_label := fun _ => inl classifier_error;
  invoke_model := invoke_model Sample.env
|}.

(** The service answers the first request and is gone at the second. *)
Definition env_second_down : Env := {|
  image_open := image_open Sample.env;
  frame_count := frame_count Sample.env;
  decode_at := decode_at Sample.env;
  vit_label := vit_label Sample.env;
  invoke_model := fun h _ =>
    if existsb Sample.is_invoke h then inl Sample.service_down
    else inr (Sample.reply "1. Waves. 2. Sandy. 3. Vibes.")
|}.

(** An answer whose message has no content segment. *)
Definition empty_reply : json :=
  JObj [("output",
         JObj [("message",
                JObj [("role", JStr "assistant"); ("content", JArr [])])]);
        ("stopReason", JStr "content_filtered")].

Definition env_empty_answer : Env := {|
  image_open := image_open Sample.env;
  frame_count := frame_count Sample.env;
  decode_at := decode_at Sample.env;
  vit_label := vit_label Sample.env;
  invoke_model := fun _ _ => inr empty_reply
|}.

End Faulty.

(* ================================================================= *)
(** * The script as a whole: module body and [__main__] block of [app.py] *)

Module Script.

(** Steps of the script that are not events of the functions. *)
Inductive step : Type :=
| Boto3Client (service region_name : string)   (* [boto3.client(...)] *)
| FromPretrained (class name : string)         (* [Class.from_pretrained(name)] *)
| Input (prompt : string)                      (* [input(prompt)] *)
| Did (e : event).

(** What the machine answers at start: whether making the client and
    loading the two parts of the model raise, and what [input] gives (the
    line typed, without its newline, or an exception such as [EOFError]). *)
Record Host : Type := mkHost {
  client_fails : option exn;
  processor_fails : option exn;
  model_fails : option exn;
  typed : exn + string
}.

Definition W (A : Type) : Type := (list step * (exn + A))%type.

Definition wret {A} (a : A) : W A := ([], inr a).

Definition wbind {A B} (m : W A) (k : A -> W B) : W B :=
  match m with
  | (out1, inl e) => (out1, inl e)
  | (out1, inr a) => let '(out2, r) := k a in (out1 ++ out2, r)
  end.

Definition attempt (s : step) (fails : option exn) : W unit :=
  ([s], match fails with Some e => inl e | None => inr tt end).

Definition say (args : list json) : W unit := ([Did (EPrint args)], inr tt).

(** A function of the script run after the events in [h]. *)
Definition run {A} (m : M A) (h : list event) : W A :=
  let '(tr, r) := m h in (map Did tr, r).

Definition vit_name : string := "google/vit-base-patch16-224".

(** Lines 11 and 39 to 42. *)
Definition module_body (host : Host) : W unit :=
  wbind (attempt (Boto3Client "bedrock-runtime" "us-east-1") (client_fails host)) (fun _ =>
  wbind (say [JStr "Loading ViT Image Model..."]) (fun _ =>
  wbind (attempt (FromPretrained "ViTImageProcessor" vit_name) (processor_fails host)) (fun _ =>
  wbind (attempt (FromPretrained "ViTForImageClassification" vit_name) (model_fails host)) (fun _ =>
  say [JStr ("Vision model loaded!" ++ Str.nl)])))).

(** The two lines printed while the module loads. *)
Definition loading_output : list event :=
  [EPrint [JStr "Loading ViT Image Model..."];
   EPrint [JStr ("Vision model loaded!" ++ Str.nl)]].

(** Lines 134 and 135. *)
Definition main_block (env : Env) (host : Host) : W unit :=
  wbind ([Input "Enter image/video file path: "], typed host) (fun file_path =>
  run (process_file env file_path) loading_output).

(** The file executed: [is_main] is [__name__ == "__main__"]. *)
Definition script (env : Env) (host : Host) (is_main : bool) : W unit :=
  wbind (module_body host) (fun _ =>
  if is_main then main_block env host else wret tt).

Definition is_input (s : step) : Prop :=
  match s with Input _ => True | _ => False end.

Definition ready (line : string) : Host := mkHost None None None (inr line).

(** The steps of a module body that runs through. *)
Definition startup_steps : list step :=
  [Boto3Client "bedrock-runtime" "us-east-1";
   Did (EPrint [JStr "Loading ViT Image Model..."]);
   FromPretrained "ViTImageProcessor" vit_name;
   FromPretrained "ViTForImageClassification" vit_name;
   Did (EPrint [JStr ("Vision model loaded!" ++ Str.nl)])].

(** Nothing raises while the module is loaded. *)
Definition loads (host : Host) : Prop :=
  client_fails host = None /\ processor_fails host = None
  /\ model_fails host = None.

End Script.

(* ================================================================= *)
(** * The connectivity probe: [test.py] *)

Module Probe.

(** What Python can raise: an exception under [Exception], which
    [except Exception] catches, or one beside it ([KeyboardInterrupt],
    [SystemExit]), which it lets through. *)
Inductive raised : Type :=
| Exc (e : exn)
| BaseExc (name : string).

Inductive step : Type :=
| Boto3Client (service region_name : string)
| ListCustomModels                    (* [bedrock.list_custom_models()] *)
| Print (text : string)               (* [print("...")] *)
| PrintException (e : exn).           (* [print(e)] *)

(** What the machine does for the script: making the client, the listing,
    and every write of a [print] to standard output, which raises when the
    stream cannot take the text ([UnicodeEncodeError] on an encoding without
    the arrows of the error header, [BrokenPipeError], ...). *)
Record Host : Type := mkHost {
  client : raised + unit;
  listing : raised + json;
  stdout : list step -> step -> raised + unit
}.

(** A computation reads the steps so far, adds steps and returns or raises. *)
Definition P (A : Type) : Type := list step -> list step * (raised + A).

Definition pbind {A B} (m : P A) (k : A -> P B) : P B :=
  fun h =>
    match m h with
    | (out1, inl e) => (out1, inl e)
    | (out1, inr a) => let '(out2, r) := k a (h ++ out1) in (out1 ++ out2, r)
    end.

Definition call {A} (s : step) (answer : raised + A) : P A :=
  fun _ => ([s], answer).

Definition write (host : Host) (s : step) : P unit :=
  fun h => ([s], stdout host h s).

Definition print (host : Host) (text : string) : P unit :=
  write host (Print text).

Definition print_exception (host : Host) (e : exn) : P unit :=
  write host (PrintException e).

(** [try: body except Exception as e: handler(e)] *)
Definition try_except_Exception (body : P unit) (handler : exn -> P unit) : P unit :=
  fun h =>
    match body h with
    | (out1, inl (Exc e)) =>
        let '(out2, r) := handler e (h ++ out1) in (out1 ++ out2, r)
    | other => other
    end.

(** The whole of [test.py]. *)
Definition test_script (host : Host) : P unit :=
  pbind (call (Boto3Client "bedrock-runtime" "us-east-1") (client host)) (fun _ =>
  try_except_Exception
    (pbind (call ListCustomModels (listing host)) (fun _ =>
     print host "Bedrock is working!"))
    (fun e =>
     pbind (print host "ERROR ↓↓↓") (fun _ =>
     print_exception host e))).

Definition made : step := Boto3Client "bedrock-runtime" "us-east-1".
Definition success_line : step := Print "Bedrock is working!".
Definition error_header : step := Print "ERROR ↓↓↓".

(** The writes of the [except] block. *)
Definition is_handler_write (s : step) : Prop :=
  s = error_header \/ exists e, s = PrintException e.

(** A standard output that takes every text. *)
Definition utf8_stdout : list step -> step -> raised + unit :=
  fun _ _ => inr tt.

(** A standard output that cannot encode the arrows of the error header. *)
Definition encode_error : exn := LibraryError "builtins" "UnicodeEncodeError".

Definition cp1252_stdout : list step -> step -> raised + unit :=
  fun _ s =>
    match s with
    | Print text => if String.eqb text "ERROR ↓↓↓" then inl (Exc encode_error)
                    else inr tt
    | _ => inr tt
    end.

Definition access_denied : exn := LibraryError "botocore" "AccessDeniedException".

(** The [except] block run after the steps [pre] on the exception [e]. *)
Definition handler_run (host : Host) (pre : list step) (e : exn)
  : list step * (raised + unit) :=
  match stdout host pre error_header with
  | inl r => (pre ++ [error_header], inl r)
  | inr _ =>
      (pre ++ [error_header; PrintException e],
       stdout host (pre ++ [error_header]) (PrintException e))
  end.

End Probe.

(* ================================================================= *)
(** * Tactics *)

Arguments caption_prompt : simpl never.
Arguments hashtags_prompt : simpl never.
Arguments bedrock_request : simpl never.

Ltac unfold_calls :=
  unfold process_label, generate_caption_and_hashtags, bedrock_generate,
    bedrock_invoke_model, classify_image, extract_middle_frame, Image_open,
    VideoCapture, cap_get_frame_count, cap_set_pos_frames, cap_read,
    cap_release, print, emitted, outcome, bind, emit, ret, raise, lift in *.

(* ================================================================= *)
(** * Suffix tests *)

Module StrFacts.
Import Str.

Lemma endswith1_ends_in (s suffix : string) :
  endswith1 s suffix = true <-> ends_in s suffix.
Proof.
  induction s as [|c s IH]; cbn [endswith1].
  - rewrite orb_false_r, String.eqb_eq. split.
    + intros <-. now exists "".
    + intros [p Hp]. destruct p; simpl in Hp; [assumption | discriminate].
  - rewrite orb_true_iff, String.eqb_eq, IH. split.
    + intros [<- | [p ->]].
      * now exists "".
      * now exists (String c p).
    + intros [[|c' p] Hp]; simpl in Hp.
      * now left.
      * right. injection Hp as _ ->. now exists p.
Qed.

Lemma endswith_ends_in (s : string) (suffixes : list string) :
  endswith s suffixes = true <->
  exists suffix, In suffix suffixes /\ ends_in s suffix.
Proof.
  unfold endswith. rewrite existsb_exists.
  split; intros [x [Hin H]]; exists x; split; trivial;
    now apply endswith1_ends_in.
Qed.

(** Two suffixes of one string: one of them ends with the other. *)
Lemma endswith1_comparable (s a b : string) :
  endswith1 s a = true -> endswith1 s b = true ->
  endswith1 a b = true \/ endswith1 b a = true.
Proof.
  induction s as [|c s IH]; cbn [endswith1];
    rewrite !orb_true_iff, !String.eqb_eq.
  - intros [<- | F] [<- | F']; try discriminate. now left.
  - intros [<- | Ha] [<- | Hb].
    + left. cbn [endswith1]. now rewrite String.eqb_refl.
    + left. cbn [endswith1]. rewrite Hb. apply orb_true_r.
    + right. cbn [endswith1]. rewrite Ha. apply orb_true_r.
    + now apply IH.
Qed.

(** No string ends with an image suffix and with a video suffix. *)
Lemma video_not_image (s : string) :
  endswith s [".mp4"; ".mov"; ".mkv"] = true ->
  endswith s [".jpg"; ".jpeg"; ".png"] = false.
Proof.
  intros Hv. destruct (endswith s [".jpg"; ".jpeg"; ".png"]) eqn:Hi; trivial.
  unfold endswith in *. apply existsb_exists in Hv, Hi.
  destruct Hv as [v [Hv Hsv]], Hi as [i [Hi Hsi]].
  destruct (endswith1_comparable _ _ _ Hsv Hsi) as [H | H];
    simpl in Hv, Hi;
    repeat (destruct Hv as [<- | Hv]; [| try contradiction]);
    repeat (destruct Hi as [<- | Hi]; [| try contradiction]);
    try contradiction; vm_compute in H; discriminate.
Qed.

Lemma append_assoc (a b c : string) :
  ((a ++ b) ++ c = a ++ b ++ c)%string.
Proof.
  induction a as [| x a IH]; cbn; [reflexivity | now rewrite IH].
Qed.

Lemma occurs_in_head (x b : string) : occurs_in x (x ++ b).
Proof. now exists "", b. Qed.

Lemma occurs_in_after (x a s : string) :
  occurs_in x s -> occurs_in x (a ++ s).
Proof.
  intros [p [q ->]]. exists (a ++ p)%string, q. now rewrite append_assoc.
Qed.

End StrFacts.

Ltac find_piece :=
  first [ apply StrFacts.occurs_in_head
        | apply StrFacts.occurs_in_after; find_piece ].

(* ================================================================= *)
(** * Running the script *)

(** An element that a first segment cannot hold lies in the second. *)
Lemma app_cons_skip {A} (P : A -> Prop) (l1 l2 pre post : list A) (x : A) :
  Forall P l1 -> ~ P x ->
  l1 ++ l2 = pre ++ x :: post ->
  exists mid, pre = l1 ++ mid /\ l2 = mid ++ x :: post.
Proof.
  intros Hall Hx. revert pre.
  induction Hall as [| a l1 Ha Hall IH]; intros pre Heq.
  - now exists pre.
  - destruct pre as [| b pre]; cbn in Heq.
    + injection Heq as -> _. contradiction.
    + injection Heq as -> Heq. destruct (IH _ Heq) as [mid [-> ->]].
      now exists mid.
Qed.

Lemma invoke_after (l1 l2 pre post : list event) (req : request) :
  Forall (fun e => ~ is_invoke_event e) l1 ->
  l1 ++ l2 = pre ++ EInvokeModel req :: post ->
  exists mid, pre = l1 ++ mid /\ l2 = mid ++ EInvokeModel req :: post.
Proof.
  intros Hall. apply app_cons_skip with (P := fun e => ~ is_invoke_event e);
    [exact Hall | cbn; tauto].
Qed.

Section Runs.

Variable env : Env.

Lemma image_branch (path : string) :
  is_image_path path ->
  Str.endswith (Str.lower path) image_suffixes = true.
Proof.
  intros H. apply StrFacts.endswith_ends_in. unfold image_suffixes.
  destruct H as [H | [H | H]]; eexists; (split; [| exact H]); simpl; auto.
Qed.

Lemma video_branch (path : string) :
  is_video_path path ->
  Str.endswith (Str.lower path) image_suffixes = false
  /\ Str.endswith (Str.lower path) video_suffixes = true.
Proof.
  intros H.
  assert (Hv : Str.endswith (Str.lower path) video_suffixes = true).
  { apply StrFacts.endswith_ends_in. unfold video_suffixes.
    destruct H as [H | [H | H]]; eexists; (split; [| exact H]); simpl; auto. }
  split; [now apply StrFacts.video_not_image | exact Hv].
Qed.

Lemma other_branch (path : string) :
  ~ is_image_path path -> ~ is_video_path path ->
  Str.endswith (Str.lower path) image_suffixes = false
  /\ Str.endswith (Str.lower path) video_suffixes = false.
Proof.
  intros Hi Hv. split.
  - destruct (Str.endswith _ image_suffixes) eqn:E; trivial.
    exfalso. apply Hi. apply StrFacts.endswith_ends_in in E.
    destruct E as [x [Hin Hx]]. unfold is_image_path. simpl in Hin.
    intuition (subst; auto).
  - destruct (Str.endswith _ video_suffixes) eqn:E; trivial.
    exfalso. apply Hv. apply StrFacts.endswith_ends_in in E.
    destruct E as [x [Hin Hx]]. unfold is_video_path. simpl in Hin.
    intuition (subst; auto).
Qed.

(** The whole run of [extract_middle_frame]. *)
Lemma extract_middle_frame_run (path : string) (h : list event) :
  extract_middle_frame env path h =
  ([EVideoCapture path; ECapGetFrameCount path;
    ECapSetPos path (frame_count env path / 2)%Z;
    ECapRead path; ECapRelease path],
   match decode_at env path (frame_count env path / 2)%Z with
   | None => inl (Exception "Could not extract frame!")
   | Some frame => inr (Image_fromarray (cv2.cvtColor_BGR2RGB frame))
   end).
Proof.
  unfold_calls. cbn. destruct (decode_at env path _); reflexivity.
Qed.

Lemma bedrock_generate_run (prompt : string) (h : list event) :
  bedrock_generate env prompt h =
  ([EInvokeModel (bedrock_request prompt)], answer env h prompt).
Proof.
  unfold answer. unfold_calls.
  destruct (invoke_model env h _); cbn; [reflexivity |].
  destruct (first_text _); reflexivity.
Qed.

Lemma generate_caption_and_hashtags_run (theme : string) (h : list event) :
  let q1 := EInvokeModel (bedrock_request (caption_prompt theme)) in
  let q2 := EInvokeModel (bedrock_request (hashtags_prompt theme)) in
  generate_caption_and_hashtags env theme h =
  match answer env h (caption_prompt theme) with
  | inl e => ([q1], inl e)
  | inr captions =>
      match answer env (h ++ [q1]) (hashtags_prompt theme) with
      | inl e => ([q1; q2], inl e)
      | inr hashtags => ([q1; q2], inr (captions, hashtags))
      end
  end.
Proof.
  cbv zeta. unfold generate_caption_and_hashtags, bind.
  rewrite bedrock_generate_run.
  destruct (answer env h _); [reflexivity |].
  rewrite bedrock_generate_run.
  destruct (answer env _ _); reflexivity.
Qed.

Lemma process_label_run (label : string) (h : list event) :
  let q1 := EInvokeModel (bedrock_request (caption_prompt label)) in
  let q2 := EInvokeModel (bedrock_request (hashtags_prompt label)) in
  process_label env label h =
  match answer env (h ++ [theme_line label]) (caption_prompt label) with
  | inl e => ([theme_line label; q1], inl e)
  | inr captions =>
      match answer env ((h ++ [theme_line label]) ++ [q1]) (hashtags_prompt label) with
      | inl e => ([theme_line label; q1; q2], inl e)
      | inr hashtags =>
          ([theme_line label; q1; q2;
            captions_line captions; hashtags_line hashtags], inr tt)
      end
  end.
Proof.
  cbv zeta. unfold process_label, bind, print, emit.
  rewrite generate_caption_and_hashtags_run.
  destruct (answer env _ (caption_prompt label)); [reflexivity |].
  destruct (answer env _ (hashtags_prompt label)); reflexivity.
Qed.

Lemma process_file_image_run (path : string) (h : list event) :
  is_image_path path ->
  process_file env path h =
  match image_open env path with
  | inl e => ([image_notice; EImageOpen path], inl e)
  | inr img =>
      match vit_label env img with
      | inl e => ([image_notice; EImageOpen path; EClassify img], inl e)
      | inr label =>
          let pre := [image_notice; EImageOpen path; EClassify img] in
          (pre ++ emitted (process_label env label) (h ++ pre),
           outcome (process_label env label) (h ++ pre))
      end
  end.
Proof.
  intros Hi. unfold process_file. rewrite (image_branch _ Hi).
  unfold classify_image, Image_open, print, emit, lift, bind, emitted, outcome.
  destruct (image_open env path) as [e | img]; [reflexivity |].
  destruct (vit_label env img) as [e | label]; [reflexivity |].
  cbn [app]. rewrite <- !app_assoc. cbn [app].
  destruct (process_label env label _); reflexivity.
Qed.

Lemma process_file_video_run (path : string) (h : list event) :
  is_video_path path ->
  let cap_events := emitted (extract_middle_frame env path) (h ++ [video_notice]) in
  process_file env path h =
  match outcome (extract_middle_frame env path) (h ++ [video_notice]) with
  | inl e => (video_notice :: cap_events, inl e)
  | inr img =>
      match vit_label env img with
      | inl e => (video_notice :: cap_events ++ [EClassify img], inl e)
      | inr label =>
          let pre := video_notice :: cap_events ++ [EClassify img] in
          (pre ++ emitted (process_label env label) (h ++ pre),
           outcome (process_label env label) (h ++ pre))
      end
  end.
Proof.
  intros Hv. destruct (video_branch _ Hv) as [Hi Hv'].
  cbv zeta. unfold process_file. rewrite Hi, Hv'.
  unfold classify_image, print, emit, lift, bind, emitted, outcome.
  change (EPrint [JStr ("Processing VIDEO..." ++ Str.nl)]) with video_notice.
  destruct (extract_middle_frame env path (h ++ [video_notice])) as [caps [e | img]];
    cbn [fst snd]; [reflexivity |].
  destruct (vit_label env img) as [e | label]; cbn [app fst snd].
  { reflexivity. }
  rewrite <- !app_assoc. cbn [app].
  destruct (process_label env label _); reflexivity.
Qed.

Lemma process_file_other_run (path : string) (h : list event) :
  ~ is_image_path path -> ~ is_video_path path ->
  process_file env path h = ([unsupported_notice], inr tt).
Proof.
  intros Hi Hv. destruct (other_branch _ Hi Hv) as [Ei Ev].
  unfold process_file. now rewrite Ei, Ev.
Qed.

Lemma process_label_events (label : string) (h : list event) :
  exists rest,
    emitted (process_label env label) h = theme_line label :: rest
    /\ Forall is_report_event rest.
Proof.
  unfold emitted. rewrite process_label_run.
  destruct (answer env _ (caption_prompt label));
    [| destruct (answer env _ (hashtags_prompt label))];
    cbn [fst]; eexists; (split; [reflexivity |]);
    repeat constructor.
Qed.

Lemma is_image_path_iff (path : string) :
  is_image_path path <-> Str.endswith (Str.lower path) image_suffixes = true.
Proof.
  split; [apply image_branch |].
  intros E. apply StrFacts.endswith_ends_in in E.
  destruct E as [x [Hin Hx]]. unfold is_image_path. cbn in Hin.
  intuition (subst; auto).
Qed.

Lemma is_video_path_iff (path : string) :
  is_video_path path <-> Str.endswith (Str.lower path) video_suffixes = true.
Proof.
  split; [apply video_branch |].
  intros E. apply StrFacts.endswith_ends_in in E.
  destruct E as [x [Hin Hx]]. unfold is_video_path. cbn in Hin.
  intuition (subst; auto).
Qed.

Lemma path_cases (path : string) :
  is_image_path path
  \/ is_video_path path
  \/ (~ is_image_path path /\ ~ is_video_path path).
Proof.
  rewrite is_image_path_iff, is_video_path_iff.
  destruct (Str.endswith _ image_suffixes); [now left |].
  destruct (Str.endswith _ video_suffixes); [now right; left |].
  right; right. split; discriminate.
Qed.

Lemma process_file_stage (path : string) (h : list event) : stage env path h.
Proof.
  destruct (path_cases path) as [Hi | [Hv | [Hi Hv]]].
  - pose proof (process_file_image_run path h Hi) as E.
    destruct (image_open env path) as [e | img].
    + eapply LoadFailed; [| exact E]. repeat constructor.
    + destruct (vit_label env img) as [e | label] eqn:El.
      * eapply (ClassifyFailed _ _ _ [_; _]); [| exact El | exact E].
        repeat constructor.
      * eapply (Labelled _ _ _ [_; _]); [| exact El | exact E].
        repeat constructor.
  - pose proof (process_file_video_run path h Hv) as E. cbv zeta in E.
    assert (Hl : Forall is_load_event
                   (video_notice
                      :: emitted (extract_middle_frame env path) (h ++ [video_notice]))).
    { unfold emitted. rewrite extract_middle_frame_run. repeat constructor. }
    destruct (outcome (extract_middle_frame env path) _) as [e | img].
    + eapply LoadFailed; [exact Hl | exact E].
    + destruct (vit_label env img) as [e | label] eqn:El.
      * eapply ClassifyFailed; [exact Hl | exact El | exact E].
      * eapply Labelled; [exact Hl | exact El |].
        rewrite E. cbn [app]. reflexivity.
  - apply Unsupported. now apply process_file_other_run.
Qed.

Lemma load_events_hold_no_invoke (l : list event) :
  Forall is_load_event l -> Forall (fun e => ~ is_invoke_event e) l.
Proof.
  apply Forall_impl. intros [] H; cbn in *; tauto.
Qed.

(** A request in the run of [process_label]: the theme line is out before
    it, and when the service answers it with an exception the run ends there
    with that exception. *)
Lemma process_label_invoke (label : string) (h mid post : list event)
    (req : request) :
  emitted (process_label env label) h = mid ++ EInvokeModel req :: post ->
  In (theme_line label) mid
  /\ (forall e, invoke_model env (h ++ mid) req = inl e ->
        outcome (process_label env label) h = inl e /\ post = []).
Proof.
  unfold emitted, outcome. rewrite process_label_run.
  destruct (answer env (h ++ [theme_line label]) (caption_prompt label))
    as [e1 | captions] eqn:E1;
    [| destruct (answer env ((h ++ [theme_line label]) ++ _) (hashtags_prompt label))
         as [e2 | hashtags] eqn:E2];
    cbn [fst snd]; intros H;
    (destruct mid as [| m0 mid]; [discriminate | injection H as <- H]);
    (split; [now left |]); intros e He; unfold answer in *.
  - destruct mid as [| m1 mid]; [| destruct mid; discriminate].
    injection H as <- <-. rewrite He in E1. injection E1 as <-. now split.
  - destruct mid as [| m1 mid].
    + injection H as <- _. rewrite He in E1. discriminate.
    + injection H as <- H. destruct mid as [| m2 mid]; [| destruct mid; discriminate].
      injection H as <- <-.
      rewrite <- app_assoc in E2. cbn [app] in E2.
      rewrite He in E2. injection E2 as <-. now split.
  - destruct mid as [| m1 mid].
    + injection H as <- _. rewrite He in E1. discriminate.
    + injection H as <- H. destruct mid as [| m2 mid].
      * injection H as <- _.
        rewrite <- app_assoc in E2. cbn [app] in E2.
        rewrite He in E2. discriminate.
      * injection H as <- H.
        destruct mid as [| ? [| ? [| ? ?]]]; discriminate.
Qed.

(** The same for a whole run of [process_file]. *)
Lemma process_file_invoke (path : string) (h pre post : list event)
    (req : request) :
  emitted (process_file env path) h = pre ++ EInvokeModel req :: post ->
  (exists label, In (theme_line label) pre)
  /\ (forall e, invoke_model env (h ++ pre) req = inl e ->
        outcome (process_file env path) h = inl e /\ post = []).
Proof.
  unfold emitted at 1, outcome at 1.
  destruct (process_file_stage path h) as [E | l1 e Hl E | l1 img e Hl _ E
                                          | l1 img label Hl _ E];
    rewrite E; cbn [fst snd]; intros H.
  - destruct pre as [| ? [| ? ?]]; discriminate.
  - exfalso. rewrite Forall_forall in Hl.
    assert (Hin : In (EInvokeModel req) l1)
      by (rewrite H; apply in_elt).
    exact (Hl _ Hin).
  - exfalso.
    destruct (invoke_after _ _ _ _ _ (load_events_hold_no_invoke _ Hl) H)
      as [mid [_ F]].
    destruct mid as [| ? [| ? ?]]; discriminate.
  - rewrite <- app_assoc in H.
    destruct (invoke_after _ _ _ _ _ (load_events_hold_no_invoke _ Hl) H)
      as [mid [-> F]].
    destruct mid as [| c mid]; [discriminate |]. injection F as <- F.
    destruct (process_label_invoke _ _ _ _ _ F) as [Hin Hfail].
    split.
    + exists label. apply in_or_app. right. now right.
    + intros e He. apply Hfail.
      rewrite <- He. f_equal. rewrite <- !app_assoc. reflexivity.
Qed.

(** The classification of a run: there is one, by the stage, and the theme
    line of its label follows it at once. *)
Lemma process_file_classify (path : string) (h pre post : list event)
    (img : Image) (label : string) :
  emitted (process_file env path) h = pre ++ EClassify img :: post ->
  vit_label env img = inr label ->
  exists post', post = theme_line label :: post'.
Proof.
  assert (Hskip : forall l1 l2,
             Forall is_load_event l1 ->
             l1 ++ l2 = pre ++ EClassify img :: post ->
             exists mid, pre = l1 ++ mid /\ l2 = mid ++ EClassify img :: post).
  { intros l1 l2 Hl. apply app_cons_skip with (P := is_load_event);
      [exact Hl | cbn; tauto]. }
  unfold emitted at 1.
  destruct (process_file_stage path h) as [E | l1 e Hl E | l1 img0 e Hl El E
                                          | l1 img0 label0 Hl El E];
    rewrite E; cbn [fst]; intros H Hlabel.
  - destruct pre as [| ? [| ? ?]]; discriminate.
  - exfalso. rewrite Forall_forall in Hl.
    assert (Hin : In (EClassify img) l1) by (rewrite H; apply in_elt).
    exact (Hl _ Hin).
  - exfalso. destruct (Hskip _ _ Hl H) as [mid [_ F]].
    destruct mid as [| ? [| ? ?]]; try discriminate.
    injection F as <- _. congruence.
  - rewrite <- app_assoc in H. destruct (Hskip _ _ Hl H) as [mid [_ F]].
    destruct (process_label_events label0 (h ++ l1 ++ [EClassify img0]))
      as [rest [Erest Hrest]].
    rewrite Erest in F.
    destruct mid as [| c mid].
    + injection F as <- <-. rewrite El in Hlabel. injection Hlabel as <-.
      now exists rest.
    + exfalso. injection F as _ F.
      assert (Hin : In (EClassify img) (theme_line label0 :: rest))
        by (rewrite F; apply in_elt).
      destruct Hin as [Hin | Hin]; [discriminate |].
      rewrite Forall_forall in Hrest. exact (Hrest _ Hin).
Qed.

(** Every image given to [classify_image] is the loaded one on an image
    path and the extracted one on a video path. *)
Lemma process_file_classified (path : string) (h : list event) (img : Image) :
  In (EClassify img) (emitted (process_file env path) h) ->
  (is_image_path path -> image_open env path = inr img)
  /\ (is_video_path path ->
        outcome (extract_middle_frame env path) (h ++ [video_notice]) = inr img).
Proof.
  intros Hin. split; intros Hp; unfold emitted in Hin.
  - rewrite (process_file_image_run path h Hp) in Hin.
    destruct (image_open env path) as [e | img0].
    + cbn in Hin. intuition discriminate.
    + destruct (vit_label env img0) as [e | label].
      * cbn in Hin. intuition (try discriminate). congruence.
      * cbv zeta in Hin. cbn [fst app] in Hin.
        destruct (process_label_events label
                    (h ++ [image_notice; EImageOpen path; EClassify img0]))
          as [rest [E Hrest]].
        rewrite E in Hin.
        destruct Hin as [F | [F | [F | [F | Hin]]]]; try discriminate.
        -- congruence.
        -- rewrite Forall_forall in Hrest. destruct (Hrest _ Hin).
  - rewrite (process_file_video_run path h Hp) in Hin. cbv zeta in Hin.
    assert (Hnoc : ~ In (EClassify img)
                     (video_notice
                        :: emitted (extract_middle_frame env path)
                             (h ++ [video_notice]))).
    { unfold emitted. rewrite extract_middle_frame_run. cbn.
      intuition discriminate. }
    destruct (outcome (extract_middle_frame env path) _) as [e | img0].
    + cbn [fst] in Hin. contradiction.
    + destruct (vit_label env img0) as [e | label]; cbn [fst] in Hin.
      * rewrite app_comm_cons in Hin. apply in_app_or in Hin.
        destruct Hin as [Hin | [Hin | []]]; [contradiction | congruence].
      * rewrite app_comm_cons in Hin. apply in_app_or in Hin.
        destruct Hin as [Hin | Hin].
        -- apply in_app_or in Hin.
           destruct Hin as [Hin | [Hin | []]]; [contradiction | congruence].
        -- match type of Hin with
           | context [emitted (process_label env label) ?hh] =>
               destruct (process_label_events label hh) as [rest [E Hrest]]
           end.
           rewrite E in Hin. destruct Hin as [F | Hin]; [discriminate |].
           rewrite Forall_forall in Hrest. destruct (Hrest _ Hin).
Qed.

End Runs.

(* ================================================================= *)
(** * The three scenarios of the script, run on the sample disk *)

Example lower_mixed_case : Str.lower "clip.MP4" = "clip.mp4".
Proof. reflexivity. Qed.

(** U+212A KELVIN SIGN lowers to [k]: a path whose extension is written
    with it is a video path, as it is for Python. *)
Example kelvin_sign_lowers_to_k : Str.lower "clip.MKV" = "clip.mkv".
Proof. reflexivity. Qed.

Example kelvin_sign_path_is_video :
  nth_error (emitted (process_file Sample.env "clip.mKv") []) 1
  = Some (EVideoCapture "clip.mKv").
Proof. reflexivity. Qed.

(** U+0130 lowers to [i] and U+0307. *)
Example dotted_I_lowers_to_i_and_dot : Str.lower "İ.PNG" = "i̇.png".
Proof. reflexivity. Qed.

Example beach_jpg_is_labelled :
  nth_error (emitted (process_file Sample.env "beach.jpg") []) 3
  = Some (theme_line "seashore").
Proof. reflexivity. Qed.

Example clip_mp4_seeks_to_50 :
  nth_error (emitted (process_file Sample.env "clip.MP4") []) 3
  = Some (ECapSetPos "clip.MP4" 50).
Proof. reflexivity. Qed.

Example doc_pdf_is_unsupported :
  process_file Sample.env "doc.pdf" [] = ([unsupported_notice], inr tt).
Proof. reflexivity. Qed.

(* ================================================================= *)
(** * Dispatch on the extension *)

(** C1.  A path whose lowercased form ends in [.jpg], [.jpeg] or [.png] is
    loaded with [Image.open]: the run starts with the image notice and the
    load of that path, no event of [extract_middle_frame] (which always
    starts by opening a capture, see [extract_middle_frame_run]) occurs
    anywhere in the run, and the image the loader returned is the one, and
    the only one, handed to [classify_image], right after the load. *)
Theorem C1_image_path_loads_directly (env : Env) (path : string) (h : list event) :
  is_image_path path ->
  let tr := emitted (process_file env path) h in
  (exists rest, tr = image_notice :: EImageOpen path :: rest)
  /\ Forall (fun e => ~ is_capture_event e) tr
  /\ (forall img, image_open env path = inr img ->
        exists rest, tr = image_notice :: EImageOpen path :: EClassify img :: rest)
  /\ (forall img, In (EClassify img) tr -> image_open env path = inr img).
Proof.
  intros Hi tr. subst tr. unfold emitted at 1 2 3 4.
  rewrite (process_file_image_run env path h Hi).
  destruct (image_open env path) as [e | img].
  - cbn [fst]. repeat split.
    + now eexists.
    + repeat constructor; cbn; tauto.
    + discriminate.
    + intros img' [F | [F | []]]; discriminate.
  - destruct (vit_label env img) as [e | label].
    + cbn [fst]. repeat split.
      * now eexists.
      * repeat constructor; cbn; tauto.
      * intros img' [= <-]. now eexists.
      * intros img' [F | [F | [[= <-] | []]]]; try discriminate. reflexivity.
    + cbv zeta. cbn [fst app].
      destruct (process_label_events env label
                  (h ++ [image_notice; EImageOpen path; EClassify img]))
        as [rest [-> Hrest]].
      repeat split.
      * now eexists.
      * repeat (constructor; [cbn; tauto |]).
        eapply Forall_impl; [| exact Hrest].
        intros [] He; cbn in *; tauto.
      * intros img' [= <-]. now eexists.
      * intros img' [F | [F | [[= <-] | [F | Hin]]]]; try discriminate; trivial.
        rewrite Forall_forall in Hrest. apply Hrest in Hin. destruct Hin.
Qed.

Lemma C1_witness :
  is_image_path "beach.jpg"
  /\ exists rest,
       emitted (process_file Sample.env "beach.jpg") [] =
       image_notice :: EImageOpen "beach.jpg" :: EClassify Sample.rgb_image :: rest.
Proof.
  assert (Hi : is_image_path "beach.jpg") by (left; now exists "beach").
  split; [exact Hi |].
  apply (C1_image_path_loads_directly Sample.env "beach.jpg" [] Hi).
  reflexivity.
Defined.

(** C2.  A path whose lowercased form ends in [.mp4], [.mov] or [.mkv] goes
    to [extract_middle_frame]: after the video notice the run holds the
    events of [extract_middle_frame] on that path, which start with the
    capture of that path; the frame it returns is the one, and the only one,
    handed to [classify_image], right after the extraction; and every
    request to the text service comes after the extraction and that
    classification. *)
Theorem C2_video_path_extracts_then_classifies
    (env : Env) (path : string) (h : list event) :
  is_video_path path ->
  let tr := emitted (process_file env path) h in
  let caps := emitted (extract_middle_frame env path) (h ++ [video_notice]) in
  let frame := outcome (extract_middle_frame env path) (h ++ [video_notice]) in
  (exists rest, tr = video_notice :: caps ++ rest)
  /\ (exists more, caps = EVideoCapture path :: more)
  /\ (forall img, frame = inr img ->
        exists rest, tr = video_notice :: caps ++ EClassify img :: rest)
  /\ (forall img, In (EClassify img) tr -> frame = inr img)
  /\ (forall pre req post, tr = pre ++ EInvokeModel req :: post ->
        exists img mid,
          frame = inr img
          /\ pre = video_notice :: caps ++ EClassify img :: mid).
Proof.
  intros Hv tr caps frame. subst tr.
  unfold emitted at 1 2 3 4.
  rewrite (process_file_video_run env path h Hv). cbv zeta.
  fold caps frame.
  assert (Hcaps : caps = [EVideoCapture path; ECapGetFrameCount path;
                          ECapSetPos path (frame_count env path / 2)%Z;
                          ECapRead path; ECapRelease path]).
  { unfold caps, emitted. now rewrite extract_middle_frame_run. }
  assert (Hnot : Forall (fun e => ~ is_invoke_event e) (video_notice :: caps)).
  { rewrite Hcaps. repeat constructor; cbn; tauto. }
  assert (Hnoc : forall img, ~ In (EClassify img) (video_notice :: caps)).
  { rewrite Hcaps. cbn. intros img H.
    repeat (destruct H as [H | H]; [discriminate |]). exact H. }
  split; [| split; [rewrite Hcaps; now eexists |]].
  - destruct frame as [e | img]; [| destruct (vit_label env img)]; cbn [fst].
    + exists []. now rewrite app_nil_r.
    + now eexists.
    + eexists. rewrite <- app_comm_cons, <- app_assoc. reflexivity.
  - destruct frame as [e | img]; [| destruct (vit_label env img) as [e | label]];
      cbn [fst]; (split; [| split]).
    + discriminate.
    + intros img H. now apply Hnoc in H.
    + intros pre req post H. exfalso.
      rewrite <- (app_nil_r (video_notice :: caps)) in H.
      destruct (invoke_after _ _ _ _ _ Hnot H) as [mid [_ F]].
      destruct mid; discriminate.
    + intros img' [= <-]. now eexists.
    + intros img' H. rewrite app_comm_cons in H. apply in_app_or in H.
      destruct H as [H | [[= <-] | []]]; [now apply Hnoc in H | reflexivity].
    + intros pre req post H. exfalso. rewrite app_comm_cons in H.
      destruct (invoke_after _ _ _ _ _ Hnot H) as [mid [_ F]].
      destruct mid as [| ? [| ? ?]]; discriminate.
    + intros img' [= <-]. eexists.
      rewrite <- app_comm_cons, <- app_assoc. reflexivity.
    + intros img' H. rewrite <- app_comm_cons, <- app_assoc in H.
      rewrite app_comm_cons in H. apply in_app_or in H.
      destruct H as [H | [[= <-] | H]]; [now apply Hnoc in H | reflexivity |].
      destruct (process_label_events env label
                  (h ++ video_notice :: caps ++ [EClassify img]))
        as [rest [E Hrest]].
      rewrite E in H. destruct H as [F | H]; [discriminate |].
      rewrite Forall_forall in Hrest. apply Hrest in H. destruct H.
    + intros pre req post H.
      rewrite <- app_comm_cons, <- app_assoc in H. rewrite app_comm_cons in H.
      destruct (invoke_after _ _ _ _ _ Hnot H) as [mid [-> F]].
      destruct mid as [| c mid]; [discriminate |]. injection F as <- _.
      exists img, mid. split; [reflexivity |].
      now rewrite <- app_comm_cons.
Qed.

Lemma C2_witness :
  is_video_path "clip.MP4"
  /\ exists rest,
       emitted (process_file Sample.env "clip.MP4") [] =
       video_notice
         :: emitted (extract_middle_frame Sample.env "clip.MP4") [video_notice]
         ++ rest.
Proof.
  assert (Hv : is_video_path "clip.MP4") by (left; now exists "clip").
  split; [exact Hv |].
  apply (C2_video_path_extracts_then_classifies Sample.env "clip.MP4" [] Hv).
Defined.

(** C3.  A path whose lowercased form ends in none of the six extensions
    makes [process_file] print the notice and return: no classification, no
    frame extraction and no request to the text service happens, and no
    exception is raised. *)
Theorem C3_other_path_is_a_no_op (env : Env) (path : string) (h : list event) :
  ~ is_image_path path -> ~ is_video_path path ->
  process_file env path h = ([unsupported_notice], inr tt).
Proof.
  intros Hi Hv. now apply process_file_other_run.
Qed.

Lemma C3_witness :
  process_file Sample.env "doc.pdf" [] = ([unsupported_notice], inr tt).
Proof.
  apply (C3_other_path_is_a_no_op Sample.env "doc.pdf" []).
  - intros H. apply (image_branch "doc.pdf") in H. vm_compute in H. discriminate.
  - intros H. apply (video_branch "doc.pdf") in H. destruct H as [_ H].
    vm_compute in H. discriminate.
Defined.

(* ================================================================= *)
(** * The middle frame *)

(** The container [live.mkv] reports no frames and still decodes at index 0:
    [extract_middle_frame] returns a frame for it, so a frame count of 0 by
    itself does not make it raise. *)
Lemma C4_zero_count_counterexample :
  ~ (frame_count Sample.env "live.mkv" = 0%Z ->
     exists e, outcome (extract_middle_frame Sample.env "live.mkv") [] = inl e).
Proof.
  intros H. destruct (H eq_refl) as [e He]. vm_compute in He. discriminate.
Qed.

(** C4, amended.  With [N] the frame count the container reports (any [N],
    so every [N >= 1], and [N = 0] with index 0), [extract_middle_frame]
    sets the position to [N / 2], rounded down, and only then reads; it
    raises [Exception("Could not extract frame!")] exactly when the read at
    that position fails, and returns a frame otherwise.  The count is not
    tested: with [N = 0] it raises when, and only when, nothing decodes at
    index 0. *)
Theorem C4_seeks_to_half_and_raises_on_failed_read
    (env : Env) (path : string) (h : list event) :
  let N := frame_count env path in
  let run := extract_middle_frame env path in
  (exists before after,
      emitted run h = before ++ ECapSetPos path (N / 2)%Z :: ECapRead path :: after
      /\ ~ In (ECapRead path) before)
  /\ (outcome run h = inl frame_error <-> decode_at env path (N / 2)%Z = None)
  /\ (forall e, outcome run h = inl e -> e = frame_error)
  /\ (N = 0%Z ->
        (outcome run h = inl frame_error <-> decode_at env path 0%Z = None)).
Proof.
  cbv zeta. unfold emitted, outcome. rewrite extract_middle_frame_run. cbn [fst snd].
  split; [| split; [| split]].
  - exists [EVideoCapture path; ECapGetFrameCount path], [ECapRelease path].
    split; [reflexivity |]. intros [F | [F | []]]; discriminate.
  - destruct (decode_at env path _); split; intros; try discriminate; reflexivity.
  - intros e. destruct (decode_at env path _); intros [= <-]. reflexivity.
  - intros ->. change (0 / 2)%Z with 0%Z.
    destruct (decode_at env path 0); split; intros; try discriminate; reflexivity.
Qed.

Lemma C4_witness :
  exists before after,
    emitted (extract_middle_frame Sample.env "clip.MP4") [] =
    before ++ ECapSetPos "clip.MP4" 50%Z :: ECapRead "clip.MP4" :: after
    /\ ~ In (ECapRead "clip.MP4") before.
Proof.
  apply (C4_seeks_to_half_and_raises_on_failed_read Sample.env "clip.MP4" []).
Defined.

Lemma fromarray_cvtColor_pixel (f : ndarray) (i j : nat) :
  image_pixel (Image_fromarray (cv2.cvtColor_BGR2RGB f)) i j =
  option_map bgr_to_rgb (frame_pixel f i j).
Proof.
  unfold image_pixel, frame_pixel, Image_fromarray, cv2.cvtColor_BGR2RGB.
  cbn [im_data]. rewrite !map_map, nth_error_map.
  destruct (nth_error f i) as [row |]; cbn; [| reflexivity].
  rewrite !map_map, nth_error_map.
  destruct (nth_error row j) as [[[b g] r] |]; reflexivity.
Qed.

(** C5.  When [extract_middle_frame] returns an image, the decoder produced
    a frame at the middle index, the image has mode RGB and the same rows
    and columns as that frame, and its pixel at every place is the decoder's
    pixel there with the stored channels (B, G, R) reordered to (R, G, B). *)
Theorem C5_returned_frame_is_rgb
    (env : Env) (path : string) (h : list event) (img : Image) :
  outcome (extract_middle_frame env path) h = inr img ->
  exists frame,
    decode_at env path (frame_count env path / 2)%Z = Some frame
    /\ im_mode img = M_RGB
    /\ forall i j,
         image_pixel img i j = option_map bgr_to_rgb (frame_pixel frame i j).
Proof.
  unfold outcome. rewrite extract_middle_frame_run. cbn [snd].
  destruct (decode_at env path _) as [frame |]; [| discriminate].
  intros [= <-]. exists frame. split; [reflexivity |]. split; [reflexivity |].
  apply fromarray_cvtColor_pixel.
Qed.

Lemma C5_witness :
  exists frame,
    decode_at Sample.env "clip.MP4" 50%Z = Some frame
    /\ frame_pixel frame 0 0 = Some (10, 20, 30)%Z
    /\ image_pixel (Image_fromarray (cv2.cvtColor_BGR2RGB Sample.bgr_frame)) 0 0
       = Some [30; 20; 10]%Z.
Proof.
  destruct (C5_returned_frame_is_rgb Sample.env "clip.MP4" []
              (Image_fromarray (cv2.cvtColor_BGR2RGB Sample.bgr_frame))
              eq_refl) as [frame [Hd [_ Hpx]]].
  exists frame. split; [exact Hd |].
  injection Hd as <-. split; reflexivity.
Defined.

(** C9.  Every run of [extract_middle_frame] makes one capture, first of
    all, and releases it last of all: the release is done before the outcome
    of the read is looked at, so before the frame is returned and before the
    exception of a failed read is raised.  The captures open after the call
    are those open before it. *)
Theorem C9_capture_released_on_every_exit
    (env : Env) (path : string) (h : list event) :
  let tr := emitted (extract_middle_frame env path) h in
  (exists mid,
      tr = EVideoCapture path :: mid ++ [ECapRelease path]
      /\ Forall (fun e => match e with
                          | EVideoCapture _ | ECapRelease _ => False
                          | _ => True
                          end) mid)
  /\ open_captures (h ++ tr) = open_captures h
  /\ ((exists img, outcome (extract_middle_frame env path) h = inr img)
      \/ outcome (extract_middle_frame env path) h = inl frame_error).
Proof.
  cbv zeta. unfold emitted, outcome. rewrite extract_middle_frame_run. cbn [fst snd].
  split; [| split].
  - eexists [_; _; _]. split; [reflexivity |]. repeat constructor.
  - unfold open_captures. rewrite fold_left_app. cbn.
    now rewrite String.eqb_refl.
  - destruct (decode_at env path _); [left; now eexists | now right].
Qed.

Lemma C9_witness :
  open_captures (emitted (extract_middle_frame Sample.env "clip.MP4") []) = []
  /\ open_captures (emitted (extract_middle_frame Sample.env "empty.mov") []) = [].
Proof.
  split.
  - apply (C9_capture_released_on_every_exit Sample.env "clip.MP4" []).
  - apply (C9_capture_released_on_every_exit Sample.env "empty.mov" []).
Defined.

(* ================================================================= *)
(** * What the classifier is given *)

(** [poster.jpg] is accepted as an image and loads in mode CMYK; that image
    goes to the classifier as loaded. *)
Lemma C6_cmyk_image_counterexample :
  is_image_path "poster.jpg"
  /\ ~ (forall img,
          In (EClassify img) (emitted (process_file Sample.env "poster.jpg") []) ->
          im_mode img = M_RGB).
Proof.
  split; [left; now exists "poster" |].
  intros H. specialize (H Sample.cmyk_image).
  assert (Hin : In (EClassify Sample.cmyk_image)
                  (emitted (process_file Sample.env "poster.jpg") [])).
  { vm_compute. right; right; left. reflexivity. }
  apply H in Hin. discriminate.
Qed.

(** C6, amended.  On a video path the image handed to [classify_image] is
    the decoded middle frame with its channels reordered from (B, G, R) to
    (R, G, B), in mode RGB.  On an image path it is the image exactly as
    [Image.open] returned it: [process_file] reorders nothing there, and the
    image is in RGB order when the loader decoded it so. *)
Theorem C6_classifier_input
    (env : Env) (path : string) (h : list event) (img : Image) :
  In (EClassify img) (emitted (process_file env path) h) ->
  (is_video_path path ->
     im_mode img = M_RGB
     /\ exists frame,
          decode_at env path (frame_count env path / 2)%Z = Some frame
          /\ forall i j,
               image_pixel img i j = option_map bgr_to_rgb (frame_pixel frame i j))
  /\ (is_image_path path -> image_open env path = inr img).
Proof.
  intros Hin. destruct (process_file_classified env path h img Hin) as [Hi Hv].
  split; [| exact Hi].
  intros Hp. specialize (Hv Hp). unfold outcome in Hv.
  rewrite extract_middle_frame_run in Hv. cbn [snd] in Hv.
  destruct (decode_at env path _) as [frame |]; [| discriminate].
  injection Hv as <-. split; [reflexivity |].
  exists frame. split; [reflexivity |]. apply fromarray_cvtColor_pixel.
Qed.

Lemma C6_witness :
  In (EClassify Sample.cmyk_image)
     (emitted (process_file Sample.env "poster.jpg") [])
  /\ image_open Sample.env "poster.jpg" = inr Sample.cmyk_image.
Proof.
  assert (Hin : In (EClassify Sample.cmyk_image)
                  (emitted (process_file Sample.env "poster.jpg") [])).
  { vm_compute. right; right; left. reflexivity. }
  split; [exact Hin |].
  apply (C6_classifier_input Sample.env "poster.jpg" [] Sample.cmyk_image Hin).
  left. now exists "poster".
Defined.

(* ================================================================= *)
(** * Captions and hashtags *)

(** The answer of the service in the shape Bedrock documents: the first
    segment's text is what [first_text] takes. *)
Lemma first_text_of_reply (role text : json) (more : list json) :
  first_text
    (JObj [("output",
            JObj [("message",
                   JObj [("role", role);
                         ("content", JArr (JObj [("text", text)] :: more))])])])
  = inr text.
Proof. reflexivity. Qed.

(** C7.  For every theme the two prompts differ and each holds the theme
    verbatim; the first asks for three captions in the three labelled styles,
    each under twelve words, the second for fifteen hashtags, lowercase and
    comma separated.  A call sends the request of the first prompt, then that
    of the second, each once and nothing else; when both are answered and
    each answer has a first text segment, the call returns the pair of those
    two segments, captions first. *)
Theorem C7_two_prompts_two_requests (env : Env) (theme : string) (h : list event) :
  let p1 := caption_prompt theme in
  let p2 := hashtags_prompt theme in
  let q1 := EInvokeModel (bedrock_request p1) in
  let q2 := EInvokeModel (bedrock_request p2) in
  let run := generate_caption_and_hashtags env theme in
  p1 <> p2
  /\ q1 <> q2
  /\ (Str.occurs_in theme p1 /\ Str.occurs_in theme p2)
  /\ (Str.occurs_in "Generate 3 Instagram captions for: " p1
      /\ Str.occurs_in "1. Aesthetic (under 12 words)" p1
      /\ Str.occurs_in "2. Funny (under 12 words)" p1
      /\ Str.occurs_in "3. Influencer style (under 12 words)" p1)
  /\ (Str.occurs_in "Generate 15 Instagram hashtags for " p2
      /\ Str.occurs_in "- lowercase" p2
      /\ Str.occurs_in "- comma separated" p2)
  /\ (emitted run h = [q1] \/ emitted run h = [q1; q2])
  /\ (forall r, outcome run h = inr r -> emitted run h = [q1; q2])
  /\ (forall data1 data2 captions hashtags,
        invoke_model env h (bedrock_request p1) = inr data1 ->
        first_text data1 = inr captions ->
        invoke_model env (h ++ [q1]) (bedrock_request p2) = inr data2 ->
        first_text data2 = inr hashtags ->
        run h = ([q1; q2], inr (captions, hashtags))).
Proof.
  cbv zeta.
  assert (Hne : caption_prompt theme <> hashtags_prompt theme).
  { unfold caption_prompt, hashtags_prompt, Str.nl. cbn. discriminate. }
  split; [exact Hne |].
  split; [intros [= H]; now apply Hne |].
  split; [split; unfold caption_prompt, hashtags_prompt; find_piece |].
  split; [repeat split; unfold caption_prompt; find_piece |].
  split; [repeat split; unfold hashtags_prompt; find_piece |].
  unfold emitted, outcome. rewrite generate_caption_and_hashtags_run. cbv zeta.
  unfold answer.
  split; [| split].
  - destruct (invoke_model env h _) as [e | d1]; [now left |].
    destruct (first_text d1); [now left |].
    destruct (invoke_model env (h ++ _) _) as [e | d2]; [now right |].
    destruct (first_text d2); now right.
  - intros r.
    destruct (invoke_model env h _) as [e | d1]; [discriminate |].
    destruct (first_text d1); [discriminate |].
    destruct (invoke_model env (h ++ _) _) as [e | d2]; [discriminate |].
    destruct (first_text d2); [discriminate | reflexivity].
  - intros d1 d2 c t -> -> -> ->. reflexivity.
Qed.

Lemma C7_witness :
  generate_caption_and_hashtags Sample.env "seashore" [] =
  ([EInvokeModel (bedrock_request (caption_prompt "seashore"));
    EInvokeModel (bedrock_request (hashtags_prompt "seashore"))],
   inr (JStr "1. Waves. 2. Sandy. 3. Vibes.", JStr "#sea, #shore")).
Proof.
  apply (C7_two_prompts_two_requests Sample.env "seashore" [])
    with (data1 := Sample.reply "1. Waves. 2. Sandy. 3. Vibes.")
         (data2 := Sample.reply "#sea, #shore");
    reflexivity.
Defined.

(* ================================================================= *)
(** * Exceptions and the order of output *)

(** C8.  [process_file] handles no exception (the script has no [try]; the
    monad has no handler).  On a video path an exception raised by
    [extract_middle_frame] is the outcome of [process_file], and the run
    holds nothing after the events of the extraction.  On every path, when
    the service answers a request of the run with an exception, that
    exception is the outcome of [process_file] and the request is the last
    event of the run. *)
Theorem C8_exceptions_reach_the_caller
    (env : Env) (path : string) (h : list event) :
  (forall e,
      is_video_path path ->
      outcome (extract_middle_frame env path) (h ++ [video_notice]) = inl e ->
      outcome (process_file env path) h = inl e
      /\ emitted (process_file env path) h =
         video_notice
           :: emitted (extract_middle_frame env path) (h ++ [video_notice]))
  /\ (forall pre req post e,
        emitted (process_file env path) h = pre ++ EInvokeModel req :: post ->
        invoke_model env (h ++ pre) req = inl e ->
        outcome (process_file env path) h = inl e /\ post = []).
Proof.
  split.
  - intros e Hv He. unfold outcome at 1, emitted at 1.
    rewrite (process_file_video_run env path h Hv). cbv zeta.
    rewrite He. now split.
  - intros pre req post e H He.
    now apply (process_file_invoke env path h pre post req H).
Qed.

Lemma C8_witness :
  outcome (process_file Sample.env "empty.mov") [] = inl frame_error
  /\ outcome (process_file Sample.env_down "beach.jpg") [] = inl Sample.service_down.
Proof.
  split.
  - apply (C8_exceptions_reach_the_caller Sample.env "empty.mov" []).
    + right; left. now exists "empty".
    + reflexivity.
  - refine (proj1 (proj2 (C8_exceptions_reach_the_caller
                            Sample.env_down "beach.jpg" [])
                     [image_notice; EImageOpen "beach.jpg";
                      EClassify Sample.rgb_image; theme_line "seashore"]
                     (bedrock_request (caption_prompt "seashore")) []
                     Sample.service_down _ _)); reflexivity.
Defined.

(** C10.  In every run of [process_file] the line with the detected theme
    is printed right after the classifier returns its label, and before
    every request to the text service.  So when the service answers a
    request with an exception, the run ends with that exception and the
    theme line is already part of the output. *)
Theorem C10_theme_line_precedes_requests
    (env : Env) (path : string) (h : list event) :
  let tr := emitted (process_file env path) h in
  (forall pre img post label,
      tr = pre ++ EClassify img :: post ->
      vit_label env img = inr label ->
      exists post', post = theme_line label :: post')
  /\ (forall pre req post,
        tr = pre ++ EInvokeModel req :: post ->
        exists label, In (theme_line label) pre)
  /\ (forall pre req post e,
        tr = pre ++ EInvokeModel req :: post ->
        invoke_model env (h ++ pre) req = inl e ->
        outcome (process_file env path) h = inl e
        /\ exists label, In (theme_line label) tr).
Proof.
  cbv zeta. split; [| split].
  - intros pre img post label H Hl.
    now apply (process_file_classify env path h pre post img label).
  - intros pre req post H.
    now apply (process_file_invoke env path h pre post req H).
  - intros pre req post e H He.
    destruct (process_file_invoke env path h pre post req H) as [[label Hin] Hout].
    split; [now apply Hout |].
    exists label. rewrite H. apply in_or_app. now left.
Qed.

Lemma C10_witness :
  outcome (process_file Sample.env_down "beach.jpg") [] = inl Sample.service_down
  /\ exists label,
       In (theme_line label) (emitted (process_file Sample.env_down "beach.jpg") []).
Proof.
  refine (proj2 (proj2 (C10_theme_line_precedes_requests
                          Sample.env_down "beach.jpg" []))
            [image_notice; EImageOpen "beach.jpg";
             EClassify Sample.rgb_image; theme_line "seashore"]
            (bedrock_request (caption_prompt "seashore")) []
            Sample.service_down _ _); reflexivity.
Defined.

(* ================================================================= *)
(** * Every run of [process_file], in closed form *)

Lemma process_file_closed_form (env : Env) (path : string) (h : list event) :
  process_file env path h =
  match first_stage env path with
  | None => ([unsupported_notice], inr tt)
  | Some (load, inl e) => (load, inl e)
  | Some (load, inr img) =>
      let pre := load ++ [EClassify img] in
      match vit_label env img with
      | inl e => (pre, inl e)
      | inr label =>
          match answer env (h ++ pre ++ [theme_line label])
                  (caption_prompt label) with
          | inl e => (pre ++ [theme_line label; caption_request label], inl e)
          | inr captions =>
              match answer env
                      (h ++ pre ++ [theme_line label; caption_request label])
                      (hashtags_prompt label) with
              | inl e =>
                  (pre ++ [theme_line label; caption_request label;
                           hashtags_request label], inl e)
              | inr hashtags =>
                  (pre ++ [theme_line label; caption_request label;
                           hashtags_request label;
                           captions_line captions; hashtags_line hashtags],
                   inr tt)
              end
          end
      end
  end.
Proof.
  unfold first_stage.
  destruct (path_cases path) as [Hi | [Hv | [Hi Hv]]].
  - rewrite (process_file_image_run env path h Hi).
    rewrite (proj1 (is_image_path_iff path) Hi).
    destruct (image_open env path) as [e | img]; [reflexivity |].
    destruct (vit_label env img) as [e | label]; [reflexivity |].
    cbv zeta. unfold emitted, outcome. rewrite process_label_run. cbv zeta.
    rewrite <- !app_assoc. cbn [app].
    destruct (answer env _ (caption_prompt label)); [reflexivity |].
    destruct (answer env _ (hashtags_prompt label)); reflexivity.
  - rewrite (process_file_video_run env path h Hv). cbv zeta.
    destruct (video_branch path Hv) as [-> ->].
    unfold emitted, outcome. rewrite extract_middle_frame_run. cbn [fst snd].
    destruct (decode_at env path _) as [frame |]; [| reflexivity].
    destruct (vit_label env _) as [e | label]; [reflexivity |].
    rewrite process_label_run. cbv zeta.
    rewrite <- !app_assoc. cbn [app].
    destruct (answer env _ (caption_prompt label)); [reflexivity |].
    destruct (answer env _ (hashtags_prompt label)); reflexivity.
  - destruct (other_branch path Hi Hv) as [-> ->].
    now apply process_file_other_run.
Qed.

Lemma first_stage_none (env : Env) (path : string) :
  first_stage env path = None <-> ~ is_image_path path /\ ~ is_video_path path.
Proof.
  unfold first_stage. rewrite is_image_path_iff, is_video_path_iff.
  destruct (Str.endswith _ image_suffixes); [split; [discriminate | intros [F _]; now destruct F] |].
  destruct (Str.endswith _ video_suffixes); [split; [discriminate | intros [_ F]; now destruct F] |].
  split; [split; discriminate | reflexivity].
Qed.

Lemma first_stage_some (env : Env) (path : string)
    (load : list event) (r : exn + Image) :
  first_stage env path = Some (load, r) ->
  (is_image_path path
   /\ load = [image_notice; EImageOpen path]
   /\ r = image_open env path)
  \/ (is_video_path path
      /\ load = [video_notice; EVideoCapture path; ECapGetFrameCount path;
                 ECapSetPos path (frame_count env path / 2)%Z;
                 ECapRead path; ECapRelease path]
      /\ r = match decode_at env path (frame_count env path / 2)%Z with
             | None => inl frame_error
             | Some frame => inr (Image_fromarray (cv2.cvtColor_BGR2RGB frame))
             end).
Proof.
  unfold first_stage. rewrite is_image_path_iff, is_video_path_iff.
  destruct (Str.endswith _ image_suffixes).
  - intros [= <- <-]. now left.
  - destruct (Str.endswith _ video_suffixes); [| discriminate].
    intros [= <- <-]. now right.
Qed.

(** All runs of [process_file] on [path] after [h], one goal per way the
    run can go, each with its events written out. *)
Ltac all_runs env path h :=
  rewrite ?(process_file_closed_form env path h) in *;
  let load := fresh "load" in
  let Hstage := fresh "Hstage" in
  destruct (first_stage env path) as [[load [?e | ?img]] |] eqn:Hstage;
  [ apply first_stage_some in Hstage;
    destruct Hstage as [[?Hi [-> ?Hopen]] | [?Hv [-> ?Hread]]]
  | apply first_stage_some in Hstage;
    destruct Hstage as [[?Hi [-> ?Hopen]] | [?Hv [-> ?Hread]]];
    cbv zeta in *;
    (destruct (vit_label env _) as [?e | ?label] eqn:?Hlabel;
     [ | destruct (answer env _ (caption_prompt _)) as [?e | ?captions] eqn:?Hcap;
         [ | destruct (answer env _ (hashtags_prompt _)) as [?e | ?hashtags] eqn:?Hhash ] ])
  | apply first_stage_none in Hstage ];
  cbn [fst snd app] in *.

(* ================================================================= *)
(** * The kind of a path *)

(** X1.  The two suffix tests of [process_file] never both hold: every path
    is an image path, a video path or neither, and exactly one of the three.
    Which test is made first decides nothing. *)
Theorem X1_one_kind_per_path (path : string) :
  (is_image_path path /\ ~ is_video_path path)
  \/ (is_video_path path /\ ~ is_image_path path)
  \/ (~ is_image_path path /\ ~ is_video_path path).
Proof.
  destruct (path_cases path) as [Hi | [Hv | H]]; [left | right; left | now right; right].
  - split; [exact Hi |]. intros Hv.
    destruct (video_branch path Hv) as [F _].
    rewrite (image_branch path Hi) in F. discriminate.
  - split; [exact Hv |]. intros Hi.
    destruct (video_branch path Hv) as [F _].
    rewrite (image_branch path Hi) in F. discriminate.
Qed.

Module StrMore.
Import Str.

Lemma length_append (a b : string) :
  String.length (a ++ b) = String.length a + String.length b.
Proof.
  induction a as [| c a IH]; cbn; [reflexivity | now rewrite IH].
Qed.

(** The cases of [lower], as equations. *)
Lemma lower_one (c : ascii) :
  lower (String c EmptyString) = String (lower_ascii c) EmptyString.
Proof. reflexivity. Qed.

Lemma lower_dotted_I (c1 c2 : ascii) (s2 : string) :
  is_dotted_I c1 c2 = true ->
  lower (String c1 (String c2 s2)) = String "i" (combining_dot (lower s2)).
Proof. intros H. cbn [lower]. now rewrite H. Qed.

Lemma lower_two (c1 c2 : ascii) :
  is_dotted_I c1 c2 = false ->
  lower (String c1 (String c2 EmptyString))
  = String (lower_ascii c1) (lower (String c2 EmptyString)).
Proof. intros H. cbn [lower]. now rewrite H. Qed.

Lemma lower_kelvin (c1 c2 c3 : ascii) (s3 : string) :
  is_dotted_I c1 c2 = false -> is_kelvin c1 c2 c3 = true ->
  lower (String c1 (String c2 (String c3 s3))) = String "k" (lower s3).
Proof. intros H K. cbn [lower]. now rewrite H, K. Qed.

Lemma lower_step (c1 c2 c3 : ascii) (s3 : string) :
  is_dotted_I c1 c2 = false -> is_kelvin c1 c2 c3 = false ->
  lower (String c1 (String c2 (String c3 s3)))
  = String (lower_ascii c1) (lower (String c2 (String c3 s3))).
Proof. intros H K. cbn [lower]. rewrite H, K. reflexivity. Qed.

(** Induction along the cases of [lower]. *)
Lemma lower_cases (P : string -> Prop) :
  P EmptyString ->
  (forall c, P (String c EmptyString)) ->
  (forall c1 c2 s2,
      is_dotted_I c1 c2 = true -> P s2 -> P (String c1 (String c2 s2))) ->
  (forall c1 c2,
      is_dotted_I c1 c2 = false ->
      P (String c2 EmptyString) -> P (String c1 (String c2 EmptyString))) ->
  (forall c1 c2 c3 s3,
      is_dotted_I c1 c2 = false -> is_kelvin c1 c2 c3 = true ->
      P s3 -> P (String c1 (String c2 (String c3 s3)))) ->
  (forall c1 c2 c3 s3,
      is_dotted_I c1 c2 = false -> is_kelvin c1 c2 c3 = false ->
      P (String c2 (String c3 s3)) -> P (String c1 (String c2 (String c3 s3)))) ->
  forall s, P s.
Proof.
  intros H0 H1 HI H2 HK HS.
  assert (Hall : forall n s, String.length s <= n -> P s).
  { induction n as [| n IH]; intros s Hlen.
    - destruct s; [exact H0 | cbn in Hlen; lia].
    - destruct s as [| c1 [| c2 s2]]; [exact H0 | apply H1 |].
      cbn in Hlen.
      destruct (is_dotted_I c1 c2) eqn:EI.
      + apply HI; [exact EI | apply IH; lia].
      + destruct s2 as [| c3 s3].
        * apply H2; [exact EI | apply IH; cbn; lia].
        * cbn in Hlen. destruct (is_kelvin c1 c2 c3) eqn:EK.
          -- apply HK; [exact EI | exact EK | apply IH; lia].
          -- apply HS; [exact EI | exact EK | apply IH; cbn; lia]. }
  intros s. now apply (Hall (String.length s)).
Qed.



Lemma low_not_byte (c : ascii) (n : nat) :
  is_low c = true -> 128 <= n -> is_byte n c = false.
Proof.
  unfold is_low, is_byte. intros Hc Hn.
  apply Nat.ltb_lt in Hc. apply Nat.eqb_neq. lia.
Qed.

(** [lower] splits before a byte of the ASCII range. *)
Lemma lower_append_low (a b : string) (c : ascii) :
  is_low c = true ->
  lower (a ++ String c b) = (lower a ++ lower (String c b))%string.
Proof.
  intros Hc.
  assert (HI : forall c1, is_dotted_I c1 c = false).
  { intros c1. unfold is_dotted_I.
    rewrite (low_not_byte c 176 Hc) by lia. apply andb_false_r. }
  assert (HK1 : forall c1 c3, is_kelvin c1 c c3 = false).
  { intros c1 c3. unfold is_kelvin.
    rewrite (low_not_byte c 132 Hc) by lia. now rewrite andb_false_r. }
  assert (HK2 : forall c1 c2, is_kelvin c1 c2 c = false).
  { intros c1 c2. unfold is_kelvin.
    rewrite (low_not_byte c 170 Hc) by lia. apply andb_false_r. }
  induction a as [| c1 | c1 c2 s2 EI IH | c1 c2 EI IH
                  | c1 c2 c3 s3 EI EK IH | c1 c2 c3 s3 EI EK IH]
    using lower_cases.
  - reflexivity.
  - cbn [append]. rewrite lower_one. cbn [append].
    destruct b as [| c3 s3].
    + now rewrite lower_two by apply HI.
    + now rewrite lower_step by (apply HI || apply HK1).
  - cbn [append]. rewrite !lower_dotted_I by exact EI.
    rewrite IH. reflexivity.
  - cbn [append] in *. rewrite lower_step by (exact EI || apply HK2).
    rewrite IH. now rewrite lower_two by exact EI.
  - cbn [append]. rewrite !lower_kelvin by assumption.
    rewrite IH. reflexivity.
  - cbn [append] in *. rewrite !lower_step by assumption.
    rewrite IH. reflexivity.
Qed.

Lemma lower_ascii_dot (c : ascii) : lower_ascii c = "."%char -> c = "."%char.
Proof.
  destruct c as [[] [] [] [] [] [] [] []]; vm_compute; intros H;
    first [reflexivity | discriminate H].
Qed.

(** Only a string that starts with a dot lowers to one that does. *)
Lemma lower_starts_with_dot (s r : string) :
  lower s = String "." r -> exists s', s = String "." s'.
Proof.
  destruct s as [| c1 [| c2 [| c3 s3]]]; cbn [lower].
  - discriminate.
  - intros [= H _]. apply lower_ascii_dot in H. subst. now eexists.
  - destruct (is_dotted_I c1 c2); [discriminate |].
    intros [= H _]. apply lower_ascii_dot in H. subst. now eexists.
  - destruct (is_dotted_I c1 c2); [discriminate |].
    destruct (is_kelvin c1 c2 c3); [discriminate |].
    intros [= H _]. apply lower_ascii_dot in H. subst. now eexists.
Qed.

(** A stem and an extension that lowers to one of the suffixes. *)
Lemma lower_stem_ext (stem ext suffix : string) (r : string) :
  suffix = String "." r -> lower ext = suffix ->
  ends_in (lower (stem ++ ext)) suffix.
Proof.
  intros -> H. destruct (lower_starts_with_dot _ _ H) as [ext' ->].
  exists (lower stem). rewrite lower_append_low by reflexivity. now rewrite H.
Qed.


End StrMore.



(** X3.  The extension is matched without regard to case and the file is
    then opened under the path as it was given: for every stem and every
    spelling of an image extension the run starts with [Image.open] on the
    unchanged path, and for every spelling of a video extension with
    [cv2.VideoCapture] on the unchanged path. *)
Theorem X3_any_case_of_extension
    (env : Env) (stem ext : string) (h : list event) :
  let path := (stem ++ ext)%string in
  (In (Str.lower ext) image_suffixes ->
     exists rest,
       emitted (process_file env path) h
       = image_notice :: EImageOpen path :: rest)
  /\ (In (Str.lower ext) video_suffixes ->
        exists rest,
          emitted (process_file env path) h
          = video_notice :: EVideoCapture path :: rest).
Proof.
  cbv zeta. split; intros Hin.
  - assert (Hi : is_image_path (stem ++ ext)).
    { unfold is_image_path.
      cbn in Hin. destruct Hin as [H | [H | [H | []]]];
        [left | right; left | right; right];
        exact (StrMore.lower_stem_ext stem ext _ _ eq_refl (eq_sym H)). }
    unfold emitted. rewrite (process_file_image_run env _ h Hi).
    destruct (image_open env _) as [e | img]; [now eexists |].
    destruct (vit_label env img); now eexists.
  - assert (Hv : is_video_path (stem ++ ext)).
    { unfold is_video_path.
      cbn in Hin. destruct Hin as [H | [H | [H | []]]];
        [left | right; left | right; right];
        exact (StrMore.lower_stem_ext stem ext _ _ eq_refl (eq_sym H)). }
    unfold emitted at 1. rewrite (process_file_video_run env _ h Hv). cbv zeta.
    unfold emitted, outcome. rewrite extract_middle_frame_run. cbn [fst snd].
    destruct (decode_at env _ _); [| now eexists].
    destruct (vit_label env _); now eexists.
Qed.

Lemma X3_witness :
  (exists rest,
      emitted (process_file Sample.env "Holiday/IMG_1.JpEg") []
      = image_notice :: EImageOpen "Holiday/IMG_1.JpEg" :: rest)
  /\ (exists rest,
        emitted (process_file Sample.env "Holiday/clip.MoV") []
        = video_notice :: EVideoCapture "Holiday/clip.MoV" :: rest).
Proof.
  split.
  - apply (X3_any_case_of_extension Sample.env "Holiday/IMG_1" ".JpEg" []).
    right; left. reflexivity.
  - apply (X3_any_case_of_extension Sample.env "Holiday/clip" ".MoV" []).
    right; left. reflexivity.
Defined.

(* ================================================================= *)
(** * Failures before the captions *)

Ltac in_cases H :=
  cbn in H;
  repeat match type of H with
         | _ \/ _ => destruct H as [H | H]
         | False => destruct H
         | _ = _ => first [discriminate H | injection H as H]
         end.

(** Splitting a run at one of its events, for runs written out. *)
Ltac split_at H :=
  repeat match type of H with
         | _ :: _ = ?pre ++ _ :: _ =>
             destruct pre as [| ? pre]; cbn in H;
             [ first [discriminate H | injection H as H] | injection H as ? H ]
         | [] = ?pre ++ _ :: _ => destruct pre; discriminate H
         end.

(** X4.  A failure of [Image.open] or of the classifier is the outcome of
    [process_file], as those of the extraction and of the service are.  When
    the load fails the run is the notice and the load; when the classifier
    raises, the classification is the last event: no theme line is printed
    and no request is sent. *)
Theorem X4_load_and_classifier_errors_propagate
    (env : Env) (path : string) (h : list event) :
  let tr := emitted (process_file env path) h in
  let out := outcome (process_file env path) h in
  (forall e,
      is_image_path path -> image_open env path = inl e ->
      tr = [image_notice; EImageOpen path] /\ out = inl e)
  /\ (forall img e,
        In (EClassify img) tr -> vit_label env img = inl e ->
        out = inl e
        /\ (exists pre, tr = pre ++ [EClassify img])
        /\ count sends_request tr = 0
        /\ forall label, ~ In (theme_line label) tr).
Proof.
  cbv zeta. unfold emitted, outcome. split.
  - intros e Hi He. rewrite (process_file_image_run env path h Hi), He. now split.
  - intros img e Hin He. all_runs env path h; in_cases Hin; subst;
      try congruence.
    + rewrite He in Hlabel. injection Hlabel as <-.
      split; [reflexivity |]. split; [now exists [image_notice; EImageOpen path] |].
      split; [reflexivity |]. intros label F. in_cases F.
    + rewrite He in Hlabel. injection Hlabel as <-.
      split; [reflexivity |]. split; [now eexists [_; _; _; _; _; _] |].
      split; [reflexivity |]. intros label F. in_cases F.
Qed.

Lemma X4_witness :
  outcome (process_file Sample.env "missing.png") [] = inl Sample.file_not_found
  /\ outcome (process_file Faulty.env_no_classifier "clip.MP4") []
     = inl Faulty.classifier_error.
Proof.
  split.
  - apply (X4_load_and_classifier_errors_propagate Sample.env "missing.png" []).
    + right; right. now exists "missing".
    + reflexivity.
  - refine (proj1 (proj2 (X4_load_and_classifier_errors_propagate
                            Faulty.env_no_classifier "clip.MP4" [])
                     (Image_fromarray (cv2.cvtColor_BGR2RGB Sample.bgr_frame))
                     Faulty.classifier_error _ _)).
    + vm_compute. do 6 right. left. reflexivity.
    + reflexivity.
Defined.

(** X5.  No result is printed unless both requests were answered.  When
    the service fails a request of the run, or answers it without a first
    text, [process_file] ends there with that exception and prints neither
    captions nor hashtags, also when the captions had already been received
    and it is the hashtags request that fails.  A print of captions or of
    hashtags comes only after the theme line and the two requests, each
    answered with a first text. *)
Theorem X5_no_results_unless_both_answered
    (env : Env) (path : string) (h : list event) :
  let tr := emitted (process_file env path) h in
  let out := outcome (process_file env path) h in
  (forall pre prompt post e,
      tr = pre ++ EInvokeModel (bedrock_request prompt) :: post ->
      answer env (h ++ pre) prompt = inl e ->
      out = inl e /\ post = []
      /\ forall x, ~ In (captions_line x) tr /\ ~ In (hashtags_line x) tr)
  /\ (forall pre x post,
        tr = pre ++ captions_line x :: post
        \/ tr = pre ++ hashtags_line x :: post ->
        exists pre0 label captions hashtags mid,
          pre = pre0 ++ [theme_line label; caption_request label;
                         hashtags_request label] ++ mid
          /\ answer env (h ++ pre0 ++ [theme_line label]) (caption_prompt label)
             = inr captions
          /\ answer env (h ++ pre0 ++ [theme_line label; caption_request label])
               (hashtags_prompt label)
             = inr hashtags).
Proof.
  cbv zeta. unfold emitted, outcome. split.
  - intros pre prompt post e H He.
    all_runs env path h; split_at H; subst; try discriminate; try congruence.
    all: assert (e0 = e) by congruence; subst e0.
    all: split; [reflexivity |]; split; [reflexivity |].
    all: intros x; split; intros F; in_cases F.
  - intros pre x post H.
    all_runs env path h; destruct H as [H | H]; split_at H; subst;
      try discriminate.
    + eexists [_; _; _], _, _, _, [].
      split; [reflexivity |]. split; eassumption.
    + eexists [_; _; _], _, _, _, [_].
      split; [reflexivity |]. split; eassumption.
    + eexists [_; _; _; _; _; _; _], _, _, _, [].
      split; [reflexivity |]. split; eassumption.
    + eexists [_; _; _; _; _; _; _], _, _, _, [_].
      split; [reflexivity |]. split; eassumption.
Qed.

Lemma X5_witness :
  outcome (process_file Faulty.env_second_down "beach.jpg") []
  = inl Sample.service_down
  /\ ~ In (captions_line (JStr "1. Waves. 2. Sandy. 3. Vibes."))
          (emitted (process_file Faulty.env_second_down "beach.jpg") []).
Proof.
  destruct (proj1 (X5_no_results_unless_both_answered
                     Faulty.env_second_down "beach.jpg" [])
              [image_notice; EImageOpen "beach.jpg";
               EClassify Sample.rgb_image; theme_line "seashore";
               caption_request "seashore"]
              (hashtags_prompt "seashore") [] Sample.service_down
              eq_refl eq_refl) as [Hout [_ Hnone]].
  split; [exact Hout | apply Hnone].
Defined.

(* ================================================================= *)
(** * How much a run does *)

(** X6.  One run of [process_file] opens at most one file, reads at most
    one frame, classifies at most once and sends at most two requests, and
    in this order: when it classifies it has opened its one file and has not
    classified before, and when it sends a request it has opened its file
    and classified once. *)
Theorem X6_one_file_one_label_two_requests
    (env : Env) (path : string) (h : list event) :
  let tr := emitted (process_file env path) h in
  count opens_file tr <= 1
  /\ count reads_frame tr <= 1
  /\ count classifies tr <= 1
  /\ count sends_request tr <= 2
  /\ (forall pre img post,
        tr = pre ++ EClassify img :: post ->
        count opens_file pre = 1 /\ count classifies pre = 0
        /\ count sends_request pre = 0)
  /\ (forall pre req post,
        tr = pre ++ EInvokeModel req :: post ->
        count opens_file pre = 1 /\ count classifies pre = 1).
Proof.
  cbv zeta. unfold emitted.
  split; [| split; [| split; [| split; [| split]]]].
  1-4: all_runs env path h; cbn; lia.
  - intros pre img0 post H.
    all_runs env path h; split_at H; subst; try discriminate;
      cbn; repeat split; reflexivity.
  - intros pre req post H.
    all_runs env path h; split_at H; subst; try discriminate;
      cbn; repeat split; reflexivity.
Qed.

(** X7.  The label goes from the classifier into the prompts unchanged:
    every request of a run is the caption request or the hashtags request
    built from the label that the classifier returned for the image
    classified earlier in that run. *)
Theorem X7_requests_carry_the_label
    (env : Env) (path : string) (h pre post : list event) (req : request) :
  emitted (process_file env path) h = pre ++ EInvokeModel req :: post ->
  exists img label,
    In (EClassify img) pre
    /\ vit_label env img = inr label
    /\ (req = bedrock_request (caption_prompt label)
        \/ req = bedrock_request (hashtags_prompt label)).
Proof.
  unfold emitted. intros H.
  all_runs env path h; split_at H; subst;
    try discriminate;
    match goal with
    | Hl : vit_label env ?i = inr ?l |- _ =>
        exists i, l; split; [cbn; tauto | split; [exact Hl | tauto]]
    end.
Qed.

Lemma X7_witness :
  exists img label,
    In (EClassify img) [image_notice; EImageOpen "beach.jpg";
                        EClassify Sample.rgb_image; theme_line "seashore";
                        caption_request "seashore"]
    /\ vit_label Sample.env img = inr label
    /\ (bedrock_request (hashtags_prompt "seashore")
        = bedrock_request (caption_prompt label)
        \/ bedrock_request (hashtags_prompt "seashore")
           = bedrock_request (hashtags_prompt label)).
Proof.
  apply (X7_requests_carry_the_label Sample.env "beach.jpg" []
           [image_notice; EImageOpen "beach.jpg";
            EClassify Sample.rgb_image; theme_line "seashore";
            caption_request "seashore"]
           [captions_line (JStr "1. Waves. 2. Sandy. 3. Vibes.");
            hashtags_line (JStr "#sea, #shore")]).
  reflexivity.
Defined.

(** X8.  What is printed is what the service sent.  A run that returns
    normally is the unsupported notice alone, or it ends with the theme
    line, the two requests and the two prints; the values printed are the
    first text segments of the answers to the caption request and to the
    hashtags request, in that order, with nothing parsed or changed. *)
Theorem X8_answers_printed_verbatim (env : Env) (path : string) (h : list event) :
  outcome (process_file env path) h = inr tt ->
  emitted (process_file env path) h = [unsupported_notice]
  \/ exists pre label captions hashtags,
       emitted (process_file env path) h
       = pre ++ [theme_line label; caption_request label; hashtags_request label;
                 captions_line captions; hashtags_line hashtags]
       /\ answer env (h ++ pre ++ [theme_line label]) (caption_prompt label)
          = inr captions
       /\ answer env (h ++ pre ++ [theme_line label; caption_request label])
            (hashtags_prompt label)
          = inr hashtags.
Proof.
  unfold emitted, outcome. intros Hout.
  all_runs env path h; try discriminate.
  - right. exists [image_notice; EImageOpen path; EClassify img], label, captions, hashtags.
    repeat split; assumption.
  - right. eexists [_; _; _; _; _; _; _], label, captions, hashtags.
    split; [reflexivity |]. split; assumption.
  - now left.
Qed.

Lemma X8_witness :
  emitted (process_file Sample.env "beach.jpg") [] = [unsupported_notice]
  \/ exists pre label captions hashtags,
       emitted (process_file Sample.env "beach.jpg") []
       = pre ++ [theme_line label; caption_request label; hashtags_request label;
                 captions_line captions; hashtags_line hashtags]
       /\ answer Sample.env ([] ++ pre ++ [theme_line label]) (caption_prompt label)
          = inr captions
       /\ answer Sample.env ([] ++ pre ++ [theme_line label; caption_request label])
            (hashtags_prompt label)
          = inr hashtags.
Proof.
  apply (X8_answers_printed_verbatim Sample.env "beach.jpg" []). reflexivity.
Defined.

(* ================================================================= *)
(** * Reading the answer of the service *)

Lemma getitem_key_inr (v x : json) (k : string) :
  Py.getitem_key v k = inr x <->
  exists fields, v = JObj fields /\ Py.dict_get k fields = Some x.
Proof.
  split.
  - destruct v; cbn; try discriminate.
    destruct (Py.dict_get k fields) eqn:E; [| discriminate].
    intros [= <-]. now exists fields.
  - intros [fields [-> E]]. cbn. now rewrite E.
Qed.

(** X9.  [bedrock_generate] finds a text exactly in answers of one shape:
    an object whose [output] is an object whose [message] is an object whose
    [content] is a list that starts with an object that has a [text]; the
    value under [text] is returned whatever it is, and later segments and
    other keys are not looked at. *)
Theorem X9_first_text_shape (data text : json) :
  first_text data = inr text <->
  exists top output message segment more,
    data = JObj top
    /\ Py.dict_get "output" top = Some (JObj output)
    /\ Py.dict_get "message" output = Some (JObj message)
    /\ Py.dict_get "content" message = Some (JArr (JObj segment :: more))
    /\ Py.dict_get "text" segment = Some text.
Proof.
  unfold first_text. split.
  - destruct (Py.getitem_key data "output") as [e | o] eqn:E1; [discriminate |].
    destruct (Py.getitem_key o "message") as [e | m] eqn:E2; [discriminate |].
    destruct (Py.getitem_key m "content") as [e | c] eqn:E3; [discriminate |].
    destruct (Py.getitem_0 c) as [e | seg] eqn:E4; [discriminate |].
    intros E5.
    apply getitem_key_inr in E1, E2, E3, E5.
    destruct E1 as [top [-> G1]], E2 as [output [-> G2]],
             E3 as [message [-> G3]], E5 as [segment [-> G5]].
    destruct c as [| | | s | items | fs]; cbn in E4; try discriminate.
    + destruct s; discriminate.
    + destruct items as [| x more]; [discriminate |]. injection E4 as ->.
      now exists top, output, message, segment, more.
  - intros [top [output [message [segment [more [-> [G1 [G2 [G3 G5]]]]]]]]].
    cbn. rewrite G1. cbn. rewrite G2. cbn. rewrite G3. cbn. now rewrite G5.
Qed.

Lemma first_text_errors (data : json) (e : exn) :
  first_text data = inl e ->
  e = TypeError \/ e = IndexError
  \/ exists k, e = KeyError k
               /\ In k [JStr "output"; JStr "message"; JStr "content";
                        JStr "text"; JNum "0"].
Proof.
  assert (Hkey : forall v k e',
             Py.getitem_key v k = inl e' ->
             e' = TypeError \/ e' = KeyError (JStr k)).
  { intros v k e'. destruct v; cbn; try (intros [= <-]; now left).
    destruct (Py.dict_get k fields); [discriminate | intros [= <-]; now right]. }
  unfold first_text.
  destruct (Py.getitem_key data "output") as [e1 | o] eqn:E1.
  { intros [= <-]. destruct (Hkey _ _ _ E1) as [-> | ->]; [now left |].
    right; right. eexists; split; [reflexivity | cbn; tauto]. }
  destruct (Py.getitem_key o "message") as [e2 | m] eqn:E2.
  { intros [= <-]. destruct (Hkey _ _ _ E2) as [-> | ->]; [now left |].
    right; right. eexists; split; [reflexivity | cbn; tauto]. }
  destruct (Py.getitem_key m "content") as [e3 | c] eqn:E3.
  { intros [= <-]. destruct (Hkey _ _ _ E3) as [-> | ->]; [now left |].
    right; right. eexists; split; [reflexivity | cbn; tauto]. }
  destruct (Py.getitem_0 c) as [e4 | seg] eqn:E4.
  { intros [= <-].
    destruct c as [| | | s | items | fs]; cbn in E4;
      try (injection E4 as <-; now left).
    - destruct s; [injection E4 as <-; now right; left | discriminate].
    - destruct items; [injection E4 as <-; now right; left | discriminate].
    - injection E4 as <-. right; right.
      eexists; split; [reflexivity | cbn; tauto]. }
  intros E5. destruct (Hkey _ _ _ E5) as [-> | ->]; [now left |].
  right; right. eexists; split; [reflexivity | cbn; tauto].
Qed.

(** X10.  An answer without a text where it is looked for stops the call
    there.  When the answer to the caption request is malformed,
    [generate_caption_and_hashtags] raises after that one request and never
    asks for hashtags; when the answer to the hashtags request is malformed
    it raises after the two requests and the captions are dropped.  The
    exception is a [KeyError] for the missing key, an [IndexError] for an
    empty list or a [TypeError]; nothing is put in the place of the text. *)
Theorem X10_malformed_answer_stops_the_call
    (env : Env) (theme : string) (h : list event) :
  let p1 := caption_prompt theme in
  let p2 := hashtags_prompt theme in
  let malformed e :=
    e = TypeError \/ e = IndexError
    \/ exists k, e = KeyError k
                 /\ In k [JStr "output"; JStr "message"; JStr "content";
                          JStr "text"; JNum "0"] in
  (forall data e,
      invoke_model env h (bedrock_request p1) = inr data ->
      first_text data = inl e ->
      generate_caption_and_hashtags env theme h = ([caption_request theme], inl e)
      /\ malformed e)
  /\ (forall captions data e,
        answer env h p1 = inr captions ->
        invoke_model env (h ++ [caption_request theme]) (bedrock_request p2)
        = inr data ->
        first_text data = inl e ->
        generate_caption_and_hashtags env theme h
        = ([caption_request theme; hashtags_request theme], inl e)
        /\ malformed e).
Proof.
  cbv zeta. split.
  - intros data e Hd He. split; [| now apply (first_text_errors data)].
    rewrite generate_caption_and_hashtags_run. cbv zeta.
    unfold answer at 1. now rewrite Hd, He.
  - intros captions data e Hc Hd He. split; [| now apply (first_text_errors data)].
    rewrite generate_caption_and_hashtags_run. cbv zeta.
    rewrite Hc. unfold answer. unfold caption_request in Hd. now rewrite Hd, He.
Qed.

Lemma X10_witness :
  generate_caption_and_hashtags Faulty.env_empty_answer "seashore" []
  = ([caption_request "seashore"], inl IndexError).
Proof.
  apply (X10_malformed_answer_stops_the_call Faulty.env_empty_answer "seashore" [])
    with (data := Faulty.empty_reply); reflexivity.
Defined.

(* ================================================================= *)
(** * The middle frame, again *)

(** X11.  The index [extract_middle_frame] seeks to is [N // 2] for the
    count [N] the container reports.  For [N >= 1] it is a frame of the
    video, [0 <= index <= N - 1], with as many frames before it as after it
    or one more.  A negative count, which the code does not exclude, gives a
    negative index. *)
Theorem X11_middle_index_bounds
    (env : Env) (path : string) (h : list event) (p : string) (pos : Z) :
  In (ECapSetPos p pos) (emitted (extract_middle_frame env path) h) ->
  let N := frame_count env path in
  p = path
  /\ pos = (N / 2)%Z
  /\ (1 <= N -> 0 <= pos <= N - 1
                /\ (pos = N - 1 - pos \/ pos = N - 1 - pos + 1))%Z
  /\ (N < 0 -> pos < 0)%Z.
Proof.
  unfold emitted. rewrite extract_middle_frame_run. cbn [fst].
  intros Hin. cbn in Hin.
  destruct Hin as [F | [F | [F | [F | [F | []]]]]]; try discriminate.
  injection F as <- <-. cbv zeta.
  pose proof (Z.div_mod (frame_count env path) 2 ltac:(lia)) as Hdm.
  pose proof (Z.mod_pos_bound (frame_count env path) 2 ltac:(lia)) as Hm.
  repeat split; try reflexivity; lia.
Qed.

Lemma X11_witness :
  let N := frame_count Sample.env "clip.MP4" in
  "clip.MP4" = "clip.MP4"
  /\ 50%Z = (N / 2)%Z
  /\ (1 <= N -> 0 <= 50 <= N - 1
                /\ (50 = N - 1 - 50 \/ 50 = N - 1 - 50 + 1))%Z
  /\ (N < 0 -> 50 < 0)%Z.
Proof.
  apply (X11_middle_index_bounds Sample.env "clip.MP4" [] "clip.MP4" 50).
  vm_compute. do 2 right. left. reflexivity.
Defined.

(** X12.  The image [extract_middle_frame] returns has the height and the
    widths of the decoded frame and three bands in every pixel, and the
    frame can be told from it: two frames that differ give images that
    differ. *)
Theorem X12_returned_image_shape
    (env : Env) (path : string) (h : list event) (img : Image) :
  outcome (extract_middle_frame env path) h = inr img ->
  exists frame,
    decode_at env path (frame_count env path / 2)%Z = Some frame
    /\ map (@List.length _) (im_data img) = map (@List.length _) frame
    /\ Forall (Forall (fun px => List.length px = 3)) (im_data img)
    /\ forall frame',
         Image_fromarray (cv2.cvtColor_BGR2RGB frame') = img -> frame' = frame.
Proof.
  unfold outcome. rewrite extract_middle_frame_run. cbn [snd].
  destruct (decode_at env path _) as [frame |]; [| discriminate].
  intros [= <-]. exists frame. split; [reflexivity |].
  unfold Image_fromarray, cv2.cvtColor_BGR2RGB. cbn [im_data].
  split; [| split].
  - rewrite !map_map. apply map_ext. intros row. now rewrite !length_map.
  - rewrite !map_map. apply Forall_forall. intros row' Hin.
    apply in_map_iff in Hin. destruct Hin as [row [<- _]].
    rewrite map_map. apply Forall_forall. intros px Hpx.
    apply in_map_iff in Hpx. destruct Hpx as [[[b g] r] [<- _]]. reflexivity.
  - intros frame' [= H]. rewrite !map_map in H.
    revert frame' H. induction frame as [| row frame IH]; intros [| row' frame'] H;
      try discriminate; [reflexivity |].
    cbn in H. injection H as Hrow H. f_equal; [| now apply IH].
    clear -Hrow. rewrite !map_map in Hrow.
    revert row' Hrow. induction row as [| [[b g] r] row IH]; intros [| [[b' g'] r'] row'] H;
      try discriminate; [reflexivity |].
    cbn in H. injection H as -> -> -> H. f_equal. now apply IH.
Qed.

Lemma X12_witness :
  exists frame,
    decode_at Sample.env "clip.MP4" (frame_count Sample.env "clip.MP4" / 2)%Z
    = Some frame
    /\ map (@List.length _)
         (im_data (Image_fromarray (cv2.cvtColor_BGR2RGB Sample.bgr_frame)))
       = map (@List.length _) frame
    /\ Forall (Forall (fun px => List.length px = 3))
         (im_data (Image_fromarray (cv2.cvtColor_BGR2RGB Sample.bgr_frame)))
    /\ forall frame',
         Image_fromarray (cv2.cvtColor_BGR2RGB frame')
         = Image_fromarray (cv2.cvtColor_BGR2RGB Sample.bgr_frame) ->
         frame' = frame.
Proof.
  apply (X12_returned_image_shape Sample.env "clip.MP4" []). reflexivity.
Defined.

(* ================================================================= *)
(** * The script from start to end *)

(** X13.  The client is made and the model is loaded while the module is
    loaded, before anything is asked.  When one of the three raises, the
    script ends with that exception: it never prompts for a path, processes
    nothing, and does not print that the model is loaded. *)
Theorem X13_no_prompt_when_loading_fails
    (env : Env) (host : Script.Host) (is_main : bool) :
  ~ Script.loads host ->
  let steps := fst (Script.script env host is_main) in
  (exists e,
      snd (Script.script env host is_main) = inl e
      /\ (Script.client_fails host = Some e
          \/ Script.processor_fails host = Some e
          \/ Script.model_fails host = Some e))
  /\ (forall s, In s steps -> ~ Script.is_input s)
  /\ ~ In (Script.Did (EPrint [JStr ("Vision model loaded!" ++ Str.nl)])) steps
  /\ exists n, steps = firstn n Script.startup_steps /\ n <= 4.
Proof.
  unfold Script.loads, Script.script, Script.module_body, Script.attempt,
    Script.say, Script.wbind.
  destruct host as [[c |] [p |] [m |] line]; cbn; intros Hnot;
    try (exfalso; apply Hnot; repeat split; reflexivity).
  all: split; [eexists; split; [reflexivity | tauto] |].
  all: split; [intros s Hin; in_cases Hin; subst; cbn; tauto |].
  all: split; [intros Hin; in_cases Hin |].
  all: first [ (exists 1; split; [reflexivity | lia])
             | (exists 3; split; [reflexivity | lia])
             | (exists 4; split; [reflexivity | lia]) ].
Qed.

Lemma X13_witness :
  snd (Script.script Sample.env
         (Script.mkHost None None (Some (LibraryError "huggingface_hub" "OSError"))
                        (inr "beach.jpg")) true)
  = inl (LibraryError "huggingface_hub" "OSError")
  /\ forall s,
       In s (fst (Script.script Sample.env
                    (Script.mkHost None None
                                   (Some (LibraryError "huggingface_hub" "OSError"))
                                   (inr "beach.jpg")) true)) ->
       ~ Script.is_input s.
Proof.
  split; [reflexivity |].
  apply (X13_no_prompt_when_loading_fails Sample.env
           (Script.mkHost None None (Some (LibraryError "huggingface_hub" "OSError"))
                          (inr "beach.jpg")) true).
  intros [_ [_ F]]. discriminate F.
Defined.

(** X14.  With the model loaded, the script run as the main program asks
    once for a path and runs [process_file] on the line as typed, nothing
    stripped or changed; what [process_file] does and how it ends is what the
    script does and how it ends.  When [input] raises, nothing is processed.
    Loaded as a module, the script still loads the model but neither asks nor
    processes. *)
Theorem X14_script_processes_the_line_typed (env : Env) (host : Script.Host) :
  Script.loads host ->
  (forall line,
      Script.typed host = inr line ->
      Script.script env host true
      = (Script.startup_steps
           ++ Script.Input "Enter image/video file path: "
           :: map Script.Did (emitted (process_file env line) Script.loading_output),
         outcome (process_file env line) Script.loading_output))
  /\ (forall e,
        Script.typed host = inl e ->
        Script.script env host true
        = (Script.startup_steps
             ++ [Script.Input "Enter image/video file path: "], inl e))
  /\ Script.script env host false = (Script.startup_steps, inr tt).
Proof.
  unfold Script.loads. destruct host as [c p m line]. cbn.
  intros [-> [-> ->]].
  unfold Script.script, Script.module_body, Script.main_block, Script.attempt,
    Script.say, Script.run, Script.wbind, emitted, outcome. cbn.
  split; [| split].
  - intros l ->. destruct (process_file env l Script.loading_output). reflexivity.
  - intros e ->. reflexivity.
  - reflexivity.
Qed.

Lemma X14_witness :
  Script.script Sample.env (Script.ready "beach.jpg ") true
  = (Script.startup_steps
       ++ [Script.Input "Enter image/video file path: ";
           Script.Did unsupported_notice],
     inr tt).
Proof.
  refine (proj1 (X14_script_processes_the_line_typed
                   Sample.env (Script.ready "beach.jpg ") _)
            "beach.jpg " eq_refl).
  repeat split.
Defined.

(* ================================================================= *)
(** * The connectivity probe *)

Lemma test_script_closed_form (host : Probe.Host) :
  Probe.test_script host [] =
  match Probe.client host with
  | inl r => ([Probe.made], inl r)
  | inr _ =>
      match Probe.listing host with
      | inl (Probe.Exc e) =>
          Probe.handler_run host [Probe.made; Probe.ListCustomModels] e
      | inl (Probe.BaseExc name) =>
          ([Probe.made; Probe.ListCustomModels], inl (Probe.BaseExc name))
      | inr _ =>
          match Probe.stdout host [Probe.made; Probe.ListCustomModels]
                  Probe.success_line with
          | inl (Probe.Exc e) =>
              Probe.handler_run host
                [Probe.made; Probe.ListCustomModels; Probe.success_line] e
          | inl (Probe.BaseExc name) =>
              ([Probe.made; Probe.ListCustomModels; Probe.success_line],
               inl (Probe.BaseExc name))
          | inr _ =>
              ([Probe.made; Probe.ListCustomModels; Probe.success_line], inr tt)
          end
      end
  end.
Proof.
  destruct host as [c l so].
  unfold Probe.test_script, Probe.try_except_Exception, Probe.pbind, Probe.call,
    Probe.print, Probe.print_exception, Probe.write, Probe.handler_run.
  cbn [Probe.client Probe.listing Probe.stdout].
  fold Probe.made Probe.success_line Probe.error_header.
  destruct c as [r0 | []]; [reflexivity |].
  destruct l as [[e0 | n0] | v]; cbn [app fst snd].
  - destruct (so _ Probe.error_header) as [r | []]; reflexivity.
  - reflexivity.
  - destruct (so _ Probe.success_line) as [[e1 | n1] | []]; cbn [app];
      try reflexivity.
    destruct (so _ Probe.error_header) as [r | []]; reflexivity.
Qed.

Ltac probe_cases c l so :=
  destruct c as [?r0 | []];
  [ | destruct l as [[?e0 | ?n0] | ?v];
      [ destruct (so [Probe.made; Probe.ListCustomModels] Probe.error_header)
          as [?r | []] eqn:?Hhdr
      |
      | destruct (so [Probe.made; Probe.ListCustomModels] Probe.success_line)
          as [[?e1 | ?n1] | []] eqn:?Hok;
        [ destruct (so [Probe.made; Probe.ListCustomModels; Probe.success_line]
                       Probe.error_header) as [?r | []] eqn:?Hhdr
        | | ] ] ];
  cbn [fst snd app] in *.

(** X15.  [test.py] catches what [list_custom_models] raises under
    [Exception] and goes on to report it: the success line is printed
    exactly when the client was made and the listing returned, and after a
    caught exception the error header is printed and then, when that print
    went through, the exception.  The script ends with an exception only
    when making the client, which is outside the [try], raises, when the
    listing or the print of the success line raises something that is not
    under [Exception], or when a print of the [except] block itself raises.
    On a standard output that takes every text, only the first two are
    left. *)
Theorem X15_probe_reports_exceptions (host : Probe.Host) :
  let steps := fst (Probe.test_script host []) in
  let out := snd (Probe.test_script host []) in
  (In Probe.success_line steps <->
     Probe.client host = inr tt /\ exists v, Probe.listing host = inr v)
  /\ (forall e,
        Probe.client host = inr tt ->
        Probe.listing host = inl (Probe.Exc e) ->
        ~ In Probe.success_line steps
        /\ (exists rest,
              steps = Probe.made :: Probe.ListCustomModels
                        :: Probe.error_header :: rest)
        /\ (Probe.stdout host [Probe.made; Probe.ListCustomModels]
                          Probe.error_header = inr tt ->
            steps = [Probe.made; Probe.ListCustomModels; Probe.error_header;
                     Probe.PrintException e]
            /\ out = Probe.stdout host
                       [Probe.made; Probe.ListCustomModels; Probe.error_header]
                       (Probe.PrintException e)))
  /\ (forall r,
        out = inl r ->
        Probe.client host = inl r
        \/ (exists name, r = Probe.BaseExc name /\ Probe.listing host = inl r)
        \/ (exists name,
              r = Probe.BaseExc name
              /\ Probe.stdout host [Probe.made; Probe.ListCustomModels]
                               Probe.success_line = inl r)
        \/ (exists h s, Probe.is_handler_write s /\ Probe.stdout host h s = inl r))
  /\ ((forall h s, Probe.stdout host h s = inr tt) ->
      forall r,
        out = inl r <->
        Probe.client host = inl r
        \/ (Probe.client host = inr tt
            /\ exists name, r = Probe.BaseExc name
                            /\ Probe.listing host = inl (Probe.BaseExc name))).
Proof.
  cbv zeta. rewrite test_script_closed_form. unfold Probe.handler_run.
  destruct host as [c l so]. cbn [Probe.client Probe.listing Probe.stdout].
  split; [| split; [| split]].
  - probe_cases c l so;
      (split; [intros H | intros [H1 [v' H2]]]);
      first [ discriminate
            | (split; [reflexivity | eexists; reflexivity])
            | (cbn; tauto)
            | (exfalso; in_cases H) ].
  - intros e Hc Hl. subst c l.
    destruct (so [Probe.made; Probe.ListCustomModels] Probe.error_header)
      as [r | []] eqn:Hhdr; cbn [fst snd app].
    + split; [intros H; in_cases H |]. split; [now eexists |]. discriminate.
    + split; [intros H; in_cases H |]. split; [now eexists |]. now split.
  - intros r.
    probe_cases c l so; intros H; try discriminate.
    all: try (injection H as <-).
    all: first
           [ now left
           | (right; left; eexists; split; reflexivity)
           | (right; right; left; eexists; split; reflexivity)
           | (right; right; right; eexists _, Probe.error_header;
              split; [left; reflexivity | eassumption])
           | (right; right; right; eexists _, (Probe.PrintException _);
              split; [right; eexists; reflexivity | exact H]) ].
  - intros Hall r. rewrite !Hall.
    destruct c as [r0 | []]; [| destruct l as [[e0 | n0] | v]]; cbn [snd];
      rewrite ?Hall.
    + split; [now left | intros [H | [H _]]; [exact H | discriminate]].
    + split; [discriminate | intros [H | [_ [name [_ H]]]]; discriminate].
    + split.
      * intros [= <-]. right. split; [reflexivity |]. now exists n0.
      * intros [H | [_ [name [-> H]]]]; [discriminate |].
        injection H as ->. reflexivity.
    + split; [discriminate | intros [H | [_ [name [_ H]]]]; discriminate].
Qed.

Lemma X15_witness :
  fst (Probe.test_script
         (Probe.mkHost (inr tt) (inl (Probe.Exc Probe.access_denied))
                       Probe.utf8_stdout) [])
  = [Probe.made; Probe.ListCustomModels; Probe.error_header;
     Probe.PrintException Probe.access_denied]
  /\ snd (Probe.test_script
            (Probe.mkHost (inr tt) (inl (Probe.Exc Probe.access_denied))
                          Probe.utf8_stdout) [])
     = inr tt.
Proof.
  exact (proj2 (proj2 (proj1 (proj2 (X15_probe_reports_exceptions
                                       (Probe.mkHost
                                          (inr tt)
                                          (inl (Probe.Exc Probe.access_denied))
                                          Probe.utf8_stdout)))
                         Probe.access_denied eq_refl eq_refl))
           eq_refl).
Defined.

(** On a standard output that cannot encode the arrows, the report of a
    caught exception itself ends the script with an exception. *)
Example probe_on_cp1252 :
  Probe.test_script
    (Probe.mkHost (inr tt) (inl (Probe.Exc Probe.access_denied))
                  Probe.cp1252_stdout) []
  = ([Probe.made; Probe.ListCustomModels; Probe.error_header],
     inl (Probe.Exc Probe.encode_error)).
Proof. reflexivity. Qed.
